(** * WPEBackend-droid: buffer pool, pool registry and IPC channel

    A shallow embedding of [src/renderer-backend-egl.cpp] and [src/ipc.cpp].

    - [uint32_t], [int], [GLuint] and [gssize] values are integers in [Z].
      The one conversion between them that can change a value, the render
      size passed as [GLsizei], is written out; the negation of [errno],
      which is positive and small, stays in range.
    - Pointers to opaque platform objects ([AHardwareBuffer*], [EGLImageKHR],
      the [wpe_renderer_backend_egl_target*]) are integers, [0] being
      [nullptr] / [EGL_NO_IMAGE_KHR], tested the way the code tests them.
    - [std::array<Buffer, 4>] is a [list Buffer]; the constructor builds its
      four elements and no operation changes its length.  [buffers.current],
      a pointer into that array, is the index of the slot it points to.
    - Calls into GL, EGL, the hardware-buffer allocator, the socket layer and
      libwpe are recorded, in program order, in a trace of [event]s; the
      values those calls hand back come from an explicit environment.
    - [std::abort], [g_error] and a retry loop that is never let out are the
      ways a function fails to return.  The use of a pointer to no live
      object is undefined behaviour; the model stops at it and says nothing
      of what follows. *)

From stdpp Require Import base option list gmap.
From Stdlib Require Import ZArith Lia.

Open Scope Z_scope.

(** ** Wire messages *)

(** Modelled from the spec: [ipc.h] and [ipc-android.h], which declare
    [IPC::Message] and the message kinds with their [code], [construct],
    [cast] and [from], are missing.  Section 3 of the specification lists the
    kinds and their payloads; a frame whose code is none of them is
    [UnknownMessage]. *)
Inductive Message : Type :=
  | PoolConstruction
  | PoolConstructionReply (poolID : Z)
  | RegisterPool (poolID : Z)
  | UnregisterPool (poolID : Z)
  | PoolPurge (poolID : Z)
  | BufferAllocation (poolID bufferID : Z)
  | BufferCommit (poolID bufferID : Z)
  | FrameComplete (poolID : Z)
  | ReleaseBuffer (poolID bufferID : Z)
  | UnknownMessage (messageCode : Z).

(** ** Traces and outcomes *)

(** The IPC client a message is sent on: the target's own [ipcClient], or
    [m_backend->ipc()] of the backend object at the given address. *)
Inductive channel : Type :=
  | TargetIpc
  | BackendIpc (backend : Z).

Inductive attachment : Type :=
  | GL_COLOR_ATTACHMENT0
  | GL_DEPTH_ATTACHMENT
  | GL_STENCIL_ATTACHMENT.

Inductive event : Type :=
  | EvGenFramebuffers (framebuffer : Z)
  | EvDeleteFramebuffers (framebuffer : Z)
  | EvDeleteRenderbuffers (renderbuffer : Z)
  | EvDestroyImage (image : Z)
  | EvHardwareBufferRelease (object : Z)
  (* AHardwareBuffer_allocate(&description, &pool[slot].object) = ret,
     leaving [object] in the out-parameter *)
  | EvHardwareBufferAllocate (w h : Z) (slot : nat) (ret object : Z)
  | EvCreateImage (object image : Z)
  | EvGenRenderbuffers (colorBuffer dsBuffer : Z)
  | EvBindRenderbuffer (renderbuffer : Z)
  | EvImageTargetRenderbufferStorage (image : Z)
  | EvRenderbufferStorage (w h : Z)
  | EvSendMessage (ch : channel) (m : Message)
  | EvSendHandleToUnixSocket (object : Z) (ch : channel) (ret : Z)
  | EvBindFramebuffer (framebuffer : Z)
  | EvFramebufferRenderbuffer (a : attachment) (renderbuffer : Z)
  | EvFlush
  | EvDispatchFrameComplete (target : Z)
  | EvSendmsg (sockfd fd : Z)
  | EvWarning.

(** Why a call does not return. *)
Inductive stop : Type :=
  | StdAbort                  (* std::abort() *)
  | GError (poolID : Z)       (* g_error(...): logs and aborts *)
  | InvalidDeref              (* a pointer to no live object is used: undefined *)
  | RetryForever.             (* the environment never lets a retry loop out *)

Inductive outcome (A : Type) : Type :=
  | Returns (a : A)
  | NoReturn (why : stop).
Arguments Returns {A} a.
Arguments NoReturn {A} why.

(** A computation yields an outcome and the trace it produced up to there. *)
Definition M (A : Type) : Type := (outcome A * list event)%type.

Definition emit (e : event) : M unit := (Returns tt, [e]).
Definition halt {A} (why : stop) : M A := (NoReturn why, []).

#[global] Instance M_ret : MRet M := λ A a, (Returns a, []).
#[global] Instance M_bind : MBind M := λ A B f m,
  match m with
  | (Returns a, es) => let '(o, es') := f a in (o, es ++ es')
  | (NoReturn why, es) => (NoReturn why, es)
  end.

Definition result {A} (m : M A) : outcome A := fst m.
Definition trace {A} (m : M A) : list event := snd m.

(** [if (x) call(x)]: a call made only for a non-zero name or pointer. *)
Definition when (c : bool) (e : event) : M unit :=
  if c then emit e else mret tt.

(** ** Data model of renderer-backend-egl.cpp *)

Record Buffer : Type := mkBuffer {
  bufferID : Z;
  locked : bool;
  object : Z;
  egl_image : Z;
  gl_colorBuffer : Z;
  gl_dsBuffer : Z }.

Record Renderer : Type := mkRenderer {
  initialized : bool;
  width : Z;
  height : Z;
  framebuffer : Z }.

Record Buffers : Type := mkBuffers {
  current : option nat;
  poolID : Z;
  pool : list Buffer }.

Record EGLTarget : Type := mkEGLTarget {
  target : Z;
  m_backend : option Z;
  renderer : Renderer;
  buffers : Buffers }.

Definition set_locked (v : bool) (b : Buffer) : Buffer :=
  mkBuffer (bufferID b) v (object b) (egl_image b) (gl_colorBuffer b) (gl_dsBuffer b).
Definition set_object (v : Z) (b : Buffer) : Buffer :=
  mkBuffer (bufferID b) (locked b) v (egl_image b) (gl_colorBuffer b) (gl_dsBuffer b).
Definition set_egl_image (v : Z) (b : Buffer) : Buffer :=
  mkBuffer (bufferID b) (locked b) (object b) v (gl_colorBuffer b) (gl_dsBuffer b).
Definition set_gl (c d : Z) (b : Buffer) : Buffer :=
  mkBuffer (bufferID b) (locked b) (object b) (egl_image b) c d.

Definition set_current (v : option nat) (bs : Buffers) : Buffers :=
  mkBuffers v (poolID bs) (pool bs).
Definition set_pool (v : list Buffer) (bs : Buffers) : Buffers :=
  mkBuffers (current bs) (poolID bs) v.

Definition with_renderer (r : Renderer) (t : EGLTarget) : EGLTarget :=
  mkEGLTarget (target t) (m_backend t) r (buffers t).
Definition with_buffers (bs : Buffers) (t : EGLTarget) : EGLTarget :=
  mkEGLTarget (target t) (m_backend t) (renderer t) bs.

(** [struct Buffer]'s default member initializers. *)
Definition Buffer_default : Buffer := mkBuffer 0 false 0 0 0 0.

(** [EGLTarget::EGLTarget]: four default slots, numbered by their position. *)
Definition EGLTarget_new (target : Z) : EGLTarget :=
  mkEGLTarget target None
    (mkRenderer false 0 0 0)
    (mkBuffers None 0
       (imap (λ i b, mkBuffer (Z.of_nat i) (locked b) (object b) (egl_image b)
                       (gl_colorBuffer b) (gl_dsBuffer b))
             (replicate 4 Buffer_default))).

(** ** destroyBufferPool *)

(** One iteration of the loop of [destroyBufferPool]. *)
Definition destroyBuffer (b : Buffer) : M Buffer :=
  when (negb (gl_colorBuffer b =? 0)) (EvDeleteRenderbuffers (gl_colorBuffer b));;
  when (negb (gl_dsBuffer b =? 0)) (EvDeleteRenderbuffers (gl_dsBuffer b));;
  let b := set_gl 0 0 b in
  when (negb (egl_image b =? 0)) (EvDestroyImage (egl_image b));;
  let b := set_egl_image 0 b in
  when (negb (object b =? 0)) (EvHardwareBufferRelease (object b));;
  let b := set_locked false b in
  let b := set_object 0 b in
  mret b.

Fixpoint destroyBufferPool (pool : list Buffer) : M (list Buffer) :=
  match pool with
  | [] => mret []
  | b :: rest =>
      b' ← destroyBuffer b;
      rest' ← destroyBufferPool rest;
      mret (b' :: rest')
  end.

(** ** EGLTarget::resize *)

Definition resize (w h : Z) (t : EGLTarget) : M EGLTarget :=
  if (width (renderer t) =? w) && (height (renderer t) =? h) then mret t
  else
    let r := renderer t in
    let t := with_renderer (mkRenderer (initialized r) w h (framebuffer r)) t in
    pool' ← destroyBufferPool (pool (buffers t));
    let t := with_buffers (set_pool pool' (buffers t)) t in
    emit (EvSendMessage TargetIpc (PoolPurge (poolID (buffers t))));;
    mret t.

(** ** EGLTarget::frameWillRender *)

(** [EAGAIN] of [<errno.h>] on Linux and Android. *)
Definition EAGAIN : Z := 11.

(** What the platform hands back during one call of [frameWillRender]. *)
Record RenderEnv : Type := mkRenderEnv {
  env_framebuffer : Z;          (* glGenFramebuffers *)
  env_alloc_ret : Z;            (* AHardwareBuffer_allocate: return value *)
  env_alloc_object : Z;         (*   and the out-parameter afterwards *)
  env_image : Z;                (* createImageKHR *)
  env_colorBuffer : Z;          (* glGenRenderbuffers *)
  env_dsBuffer : Z;
  env_sendHandle : list Z }.    (* AHardwareBuffer_sendHandleToUnixSocket, call by call *)

(** Lines 248-267: one-time set-up of the renderer.  The four entry points
    looked up here are the calls [EvCreateImage], [EvDestroyImage] and
    [EvImageTargetRenderbufferStorage] stand for. *)
Definition initializeRenderer (e : RenderEnv) (t : EGLTarget) : M EGLTarget :=
  if initialized (renderer t) then mret t
  else
    emit (EvGenFramebuffers (env_framebuffer e));;
    mret (with_renderer
            (mkRenderer true (width (renderer t)) (height (renderer t)) (env_framebuffer e)) t).

(** Lines 273-279: the index of the first slot the loop does not [continue]
    over, counting from [i]. *)
Fixpoint firstUnlocked (i : nat) (pool : list Buffer) : option nat :=
  match pool with
  | [] => None
  | b :: rest => if locked b then firstUnlocked (S i) rest else Some i
  end.

Definition selectCurrent (bs : Buffers) : Buffers :=
  match firstUnlocked 0 (pool bs) with
  | Some i => set_current (Some i) bs
  | None => bs
  end.

(** [*p] for a pointer into the pool. *)
Definition slot (c : nat) (pool : list Buffer) : M Buffer :=
  match pool !! c with
  | Some b => mret b
  | None => halt InvalidDeref
  end.

(** [m_backend->...]. *)
Definition backend_of (t : EGLTarget) : M Z :=
  match m_backend t with
  | Some b => mret b
  | None => halt InvalidDeref
  end.

(** Lines 332-336: [while (true)] around the hand-over of the handle. *)
Fixpoint sendHandleToUnixSocket (obj : Z) (ch : channel) (rets : list Z) : M unit :=
  match rets with
  | [] => halt RetryForever
  | ret :: rest =>
      emit (EvSendHandleToUnixSocket obj ch ret);;
      if (ret =? 0) || negb (ret =? - EAGAIN) then mret tt
      else sendHandleToUnixSocket obj ch rest
  end.

(** Lines 340-346: the current slot's renderbuffers become the framebuffer's
    attachments. *)
Definition attachCurrent (b : Buffer) (t : EGLTarget) : M EGLTarget :=
  emit (EvBindFramebuffer (framebuffer (renderer t)));;
  emit (EvFramebufferRenderbuffer GL_COLOR_ATTACHMENT0 (gl_colorBuffer b));;
  emit (EvFramebufferRenderbuffer GL_DEPTH_ATTACHMENT (gl_dsBuffer b));;
  emit (EvFramebufferRenderbuffer GL_STENCIL_ATTACHMENT (gl_dsBuffer b));;
  mret t.

(** A [uint32_t] passed where [GLsizei], a 32-bit [int], is expected. *)
Definition to_GLsizei (x : Z) : Z :=
  if x <? 2 ^ 31 then x else x - 2 ^ 32.

(** Lines 289-338, entered when the current slot [c] has no [object]. *)
Definition allocateCurrent (e : RenderEnv) (c : nat) (b : Buffer) (t : EGLTarget)
    : M EGLTarget :=
  let w := width (renderer t) in
  let h := height (renderer t) in
  emit (EvHardwareBufferAllocate w h c (env_alloc_ret e) (env_alloc_object e));;
  let b := set_object (env_alloc_object e) b in
  let t := with_buffers (set_pool (<[c := b]> (pool (buffers t))) (buffers t)) t in
  if negb (env_alloc_ret e =? 0) || (object b =? 0) then mret t
  else
    emit (EvCreateImage (object b) (env_image e));;
    let b := set_egl_image (env_image e) b in
    emit (EvGenRenderbuffers (env_colorBuffer e) (env_dsBuffer e));;
    let b := set_gl (env_colorBuffer e) (env_dsBuffer e) b in
    let t := with_buffers (set_pool (<[c := b]> (pool (buffers t))) (buffers t)) t in
    emit (EvBindRenderbuffer (gl_colorBuffer b));;
    emit (EvImageTargetRenderbufferStorage (egl_image b));;
    emit (EvBindRenderbuffer (gl_dsBuffer b));;
    emit (EvRenderbufferStorage (to_GLsizei w) (to_GLsizei h));;
    backend ← backend_of t;
    emit (EvSendMessage (BackendIpc backend)
            (BufferAllocation (poolID (buffers t)) (bufferID b)));;
    sendHandleToUnixSocket (object b) (BackendIpc backend) (env_sendHandle e);;
    attachCurrent b t.

Definition frameWillRender (e : RenderEnv) (t : EGLTarget) : M EGLTarget :=
  t ← initializeRenderer e t;
  let t := with_buffers (selectCurrent (buffers t)) t in
  match current (buffers t) with
  | None => halt StdAbort
  | Some c =>
      b ← slot c (pool (buffers t));
      if object b =? 0 then allocateCurrent e c b t
      else attachCurrent b t
  end.

(** ** EGLTarget::frameRendered *)

Definition frameRendered (t : EGLTarget) : M EGLTarget :=
  emit EvFlush;;
  match current (buffers t) with
  | None => halt InvalidDeref
  | Some c =>
      b ← slot c (pool (buffers t));
      (if negb (object b =? 0) then
         backend ← backend_of t;
         emit (EvSendMessage (BackendIpc backend)
                 (BufferCommit (poolID (buffers t)) (bufferID b)))
       else mret tt);;
      let pool' := <[c := set_locked true b]> (pool (buffers t)) in
      mret (with_buffers (mkBuffers None (poolID (buffers t)) pool') t)
  end.

(** ** EGLTarget::deinitialize *)

Definition deinitialize (t : EGLTarget) : M EGLTarget :=
  pool' ← destroyBufferPool (pool (buffers t));
  let t := with_buffers (set_pool pool' (buffers t)) t in
  let r := renderer t in
  when (negb (framebuffer r =? 0)) (EvDeleteFramebuffers (framebuffer r));;
  mret (with_renderer (mkRenderer (initialized r) (width r) (height r) 0) t).

(** ** EGLTarget::releaseBuffer *)

(** Lines 392-397: unlock the first slot whose id matches, then [break]. *)
Fixpoint unlockFirst (id : Z) (pool : list Buffer) : list Buffer :=
  match pool with
  | [] => []
  | b :: rest =>
      if bufferID b =? id then set_locked false b :: rest
      else b :: unlockFirst id rest
  end.

Definition releaseBuffer (poolId bufferId : Z) (t : EGLTarget) : EGLTarget :=
  if negb (poolID (buffers t) =? poolId) then t
  else with_buffers (set_pool (unlockFirst bufferId (pool (buffers t))) (buffers t)) t.

(** ** RendererBackend: the pool registry *)

(** The backend object and the [EGLTarget] objects its map points to.
    [targets] holds the live [EGLTarget] objects by address; an address that
    is not in it is a null or dangling pointer. *)
Record RendererBackend : Type := mkRendererBackend {
  m_targetMap : gmap Z Z;
  targets : gmap Z EGLTarget }.

(** [std::unordered_map::insert] keeps an element that has the key already. *)
Definition registerEGLTarget (poolId target : Z) (be : RendererBackend)
    : RendererBackend :=
  match m_targetMap be !! poolId with
  | Some _ => be
  | None => mkRendererBackend (<[poolId := target]> (m_targetMap be)) (targets be)
  end.

(** [it->second->...].  An address with no live object behind it is a null
    or dangling pointer; using it is undefined behaviour, and the model stops
    there without saying what a run does next. *)
Definition target_at (addr : Z) (be : RendererBackend) : M EGLTarget :=
  match targets be !! addr with
  | Some t => mret t
  | None => halt InvalidDeref
  end.

(** ** Handlers and channels (ipc.cpp) *)

(** [IPC::Host::Handler] and [IPC::Client::Handler]: an object with a
    [handleMessage(char*, size_t)] method. *)
Class Handler (H : Type) : Type :=
  handleMessage : Message → Z → H → M H.

(** [G_IO_IN] of GLib's [GIOCondition]. *)
Definition G_IO_IN : Z := 1.

(** [EINTR] of [<errno.h>] on Linux and Android. *)
Definition EINTR : Z := 4.

(** Modelled from the spec: [NO_ERROR] comes from a header that is missing;
    the specification has the operation return zero on success. *)
Definition NO_ERROR : Z := 0.

(** What one receive call on the socket yields: its return value, the frame
    left in the buffer, and for a failed call whether the error is
    [G_IO_ERROR_CONNECTION_CLOSED]. *)
Record Received : Type := mkReceived {
  recv_len : Z;
  recv_buffer : Message;
  recv_connection_closed : bool }.

(** The members of [IPC::Host] and [IPC::Client] the callbacks read; the
    handler object stands where the pointer to it is. *)
Record Host (H : Type) : Type := mkHost {
  host_socket : option Z;
  host_handler : option H }.
Arguments mkHost {H} _ _.
Arguments host_socket {H} _.
Arguments host_handler {H} _.

Record Client (H : Type) : Type := mkClient {
  m_socket : option Z;
  m_handler : option H }.
Arguments mkClient {H} _ _.
Arguments m_socket {H} _.
Arguments m_handler {H} _.

(** [Client::socketFd]. *)
Definition socketFd {H} (c : Client H) : Z :=
  match m_socket c with
  | Some fd => fd
  | None => -1
  end.

(** The [do ... while (result == -1 && errno == EINTR)] of
    [sendFileDescriptor]; [outcomes] lists what [sendmsg] returns and the
    [errno] it leaves, call by call. *)
Fixpoint sendmsg_retry (sockfd fd : Z) (outcomes : list (Z * Z)) : M (Z * Z) :=
  match outcomes with
  | [] => halt RetryForever
  | (result, errno) :: rest =>
      emit (EvSendmsg sockfd fd);;
      if (result =? -1) && (errno =? EINTR) then sendmsg_retry sockfd fd rest
      else mret (result, errno)
  end.

Definition sendFileDescriptor {H} (c : Client H) (fd : Z) (outcomes : list (Z * Z))
    : M Z :=
  '(result, errno) ← sendmsg_retry (socketFd c) fd outcomes;
  if result =? -1 then mret (- errno)
  else mret NO_ERROR.

(** [EGLTarget::handleMessage] is an empty body. *)
#[global] Instance EGLTarget_Handler : Handler EGLTarget :=
  λ data size t, mret t.

Section IPC.

(** [IPC::Message::size], a [size_t] constant of the missing [ipc.h]. *)
Variable Message_size : Z.

(** *** RendererBackend::handleMessage *)

Definition RendererBackend_handleMessage (data : Message) (size : Z)
    (be : RendererBackend) : M RendererBackend :=
  if negb (size =? Message_size) then mret be
  else
    match data with
    | FrameComplete poolId =>
        match m_targetMap be !! poolId with
        | None => halt (GError poolId)
        | Some addr =>
            t ← target_at addr be;
            emit (EvDispatchFrameComplete (target t));;
            mret be
        end
    | ReleaseBuffer poolId bufferId =>
        match m_targetMap be !! poolId with
        | None => halt (GError poolId)
        | Some addr =>
            t ← target_at addr be;
            mret (mkRendererBackend (m_targetMap be)
                    (<[addr := releaseBuffer poolId bufferId t]> (targets be)))
        end
    | _ => mret be
    end.

#[local] Instance RendererBackend_Handler : Handler RendererBackend :=
  RendererBackend_handleMessage.

(** *** Host::socketCallback and Client::socketCallback

    The callbacks return [TRUE] to stay attached to the main loop and
    [FALSE] to have their source removed. *)

Definition Host_socketCallback {H} `{Handler H} (condition : Z) (rx : Received)
    (host : Host H) : M (bool * Host H) :=
  if Z.land condition G_IO_IN =? 0 then mret (true, host)
  else if recv_len rx =? -1 then mret (false, host)
  else
    host ← (if recv_len rx =? Message_size then
              match host_handler host with
              | None => halt InvalidDeref
              | Some h =>
                  h' ← handleMessage (recv_buffer rx) Message_size h;
                  mret (mkHost (host_socket host) (Some h'))
              end
            else mret host);
    mret (true, host).

Definition Client_socketCallback {H} `{Handler H} (condition : Z) (rx : Received)
    (client : Client H) : M (bool * Client H) :=
  if Z.land condition G_IO_IN =? 0 then mret (true, client)
  else if recv_len rx =? -1 then
    when (negb (recv_connection_closed rx)) EvWarning;;
    mret (false, client)
  else
    client ← (if recv_len rx =? Message_size then
                match m_handler client with
                | Some h =>
                    h' ← handleMessage (recv_buffer rx) Message_size h;
                    mret (mkClient (m_socket client) (Some h'))
                | None => mret client
                end
              else mret client);
    mret (true, client).

(** *** Client::sendAndReceiveMessage

    (called [sendReceiveMessage] in renderer-backend-egl.cpp): one frame
    sent on [ch], one blocking receive, and [handler] run on a whole frame
    only. *)

Definition sendAndReceiveMessage {S} (ch : channel) (data : Message)
    (reply : Received) (handler : Message → Z → S → M S) (s : S) : M S :=
  emit (EvSendMessage ch data);;
  if recv_len reply =? Message_size then handler (recv_buffer reply) Message_size s
  else mret s.

(** *** EGLTarget::initialize

    [self] is the address of the target and [backend] that of the backend
    object, whose registry and live targets are [be]. *)

Definition initialize (self backend w h : Z) (reply : Received)
    (be : RendererBackend) : M RendererBackend :=
  t ← target_at self be;
  let r := renderer t in
  let t := mkEGLTarget (target t) (Some backend)
             (mkRenderer (initialized r) w h (framebuffer r)) (buffers t) in
  let be := mkRendererBackend (m_targetMap be) (<[self := t]> (targets be)) in
  sendAndReceiveMessage (BackendIpc backend) PoolConstruction reply
    (λ data size be,
       if negb (size =? Message_size) then mret be
       else
         match data with
         | PoolConstructionReply poolId =>
             let t := with_buffers
                        (mkBuffers (current (buffers t)) poolId (pool (buffers t))) t in
             let be := mkRendererBackend (m_targetMap be)
                         (<[self := t]> (targets be)) in
             let be := registerEGLTarget poolId self be in
             emit (EvSendMessage TargetIpc (RegisterPool poolId));;
             mret be
         | _ => mret be
         end)
    be.

End IPC.

(** ** Sequences of calls on one target *)

Inductive op : Type :=
  | OpFrameWillRender (e : RenderEnv)
  | OpFrameRendered
  | OpReleaseBuffer (poolId bufferId : Z)
  | OpResize (w h : Z)
  | OpDeinitialize.

Definition step (o : op) (t : EGLTarget) : M EGLTarget :=
  match o with
  | OpFrameWillRender e => frameWillRender e t
  | OpFrameRendered => frameRendered t
  | OpReleaseBuffer poolId bufferId => mret (releaseBuffer poolId bufferId t)
  | OpResize w h => resize w h t
  | OpDeinitialize => deinitialize t
  end.

Fixpoint run (ops : list op) (t : EGLTarget) : M EGLTarget :=
  match ops with
  | [] => mret t
  | o :: rest => t' ← step o t; run rest t'
  end.

(** A call that does not reach [destroyBufferPool] on a target whose render
    size is [w] by [h]. *)
Definition keeps_pool (w h : Z) (o : op) : bool :=
  match o with
  | OpResize w' h' => (w =? w') && (h =? h')
  | OpDeinitialize => false
  | _ => true
  end.

(** The event is a [BufferAllocation] announcing buffer [id]. *)
Definition announces (id : Z) (e : event) : bool :=
  match e with
  | EvSendMessage _ (BufferAllocation _ id') => id' =? id
  | _ => false
  end.

(** The event is an allocator call that leaves a handle in slot [i]. *)
Definition creates (i : nat) (e : event) : bool :=
  match e with
  | EvHardwareBufferAllocate _ _ slot _ obj => (slot =? i)%nat && negb (obj =? 0)
  | _ => false
  end.

(** How many events of a trace satisfy [p]. *)
Definition count (p : event → bool) (es : list event) : nat :=
  length (filter (λ e, p e = true) es).

(** Slots carry their position as id, as the constructor leaves them. *)
Definition numbered (pool : list Buffer) : Prop :=
  ∀ i b, pool !! i = Some b → bufferID b = Z.of_nat i.

(** [t'] differs from [t] in the slots of the pool at most. *)
Record same_session (t t' : EGLTarget) : Prop := {
  same_target : target t' = target t;
  same_backend : m_backend t' = m_backend t;
  same_renderer : renderer t' = renderer t;
  same_current : current (buffers t') = current (buffers t);
  same_poolID : poolID (buffers t') = poolID (buffers t) }.

(** A slot after [destroyBufferPool]: its id, and nothing else. *)
Definition freed (b : Buffer) : Buffer := mkBuffer (bufferID b) false 0 0 0 0.

(** The trace of [if (x) call(x)]. *)
Definition call_if_set (x : Z) (e : event) : list event :=
  if x =? 0 then [] else [e].

(** How many handles slot [b] can still be given before the next purge. *)
Definition budget (b : Buffer) : nat := if object b =? 0 then 1%nat else 0%nat.

(** Slot [b'] is slot [b] later in the same purge epoch: the same id, and
    the same handle if [b] had one. *)
Definition keeps_handle (b b' : Buffer) : Prop :=
  bufferID b' = bufferID b ∧ (object b ≠ 0 → object b' = object b).

(** What one call that keeps the pool does to slot [i], and what it may add
    to the trace for it. *)
Definition step_ok (i : nat) (b : Buffer) (t : EGLTarget) (m : M EGLTarget) : Prop :=
  match m with
  | (Returns t', es) =>
      width (renderer t') = width (renderer t) ∧
      height (renderer t') = height (renderer t) ∧
      numbered (pool (buffers t')) ∧
      ∃ b', pool (buffers t') !! i = Some b' ∧ keeps_handle b b' ∧
            (count (announces (bufferID b)) es + budget b' ≤ budget b)%nat ∧
            (count (creates i) es + budget b' ≤ budget b)%nat
  | (NoReturn _, es) =>
      (count (announces (bufferID b)) es ≤ budget b)%nat ∧
      (count (creates i) es ≤ budget b)%nat
  end.

(** ** Sample sessions *)

(** A target as [initialize] leaves it once the host has assigned pool 7. *)
Definition session7 : EGLTarget :=
  mkEGLTarget 1 (Some 1000) (mkRenderer false 640 480 0)
    (mkBuffers None 7 (pool (buffers (EGLTarget_new 1)))).

(** The same session with every slot committed and none released. *)
Definition saturated7 : EGLTarget :=
  with_buffers (set_pool (set_locked true <$> pool (buffers session7)) (buffers session7))
    session7.

(** The platform allocates: handle 100, image 200, renderbuffers 11 and 12,
    the hand-over accepted after one [EAGAIN]. *)
Definition env_ok : RenderEnv := mkRenderEnv 5 0 100 200 11 12 [- EAGAIN; 0].

(** The allocator is out of memory. *)
Definition env_nomem : RenderEnv := mkRenderEnv 5 (-12) 0 0 0 0 [].

(** Slot 0 of [session7] carries a handle and its GPU objects, unlocked. *)
Definition allocated7 : EGLTarget :=
  with_buffers
    (set_pool (<[0%nat := mkBuffer 0 false 100 200 11 12]> (pool (buffers session7)))
       (buffers session7))
    (with_renderer (mkRenderer true 640 480 5) session7).

(** A backend whose registry maps pool 7 to the target at address 2000. *)
Definition backend7 : RendererBackend :=
  mkRendererBackend {[ 7 := 2000 ]} {[ 2000 := saturated7 ]}.

(** [allocated7] while a frame is rendered into slot 0. *)
Definition rendering7 : EGLTarget :=
  with_buffers (set_current (Some 0%nat) (buffers allocated7)) allocated7.

(** [session7] after a [frameWillRender] whose allocation failed: slot 0 is
    current and has no handle. *)
Definition unbacked7 : EGLTarget :=
  with_buffers (set_current (Some 0%nat) (buffers session7))
    (with_renderer (mkRenderer true 640 480 5) session7).

(** The backend as handler of 32-byte frames. *)
#[local] Instance Handler32 : Handler RendererBackend := RendererBackend_Handler 32.

(** The backend's client end of the channel, with the backend as handler. *)
Definition client7 : Client RendererBackend := mkClient (Some 3) (Some backend7).
Definition host7 : Host RendererBackend := mkHost (Some 4) (Some backend7).

(** One frame, rendered, presented and released, then the next one begun. *)
Definition one_frame_cycle : list op :=
  [OpFrameWillRender env_ok; OpFrameRendered; OpReleaseBuffer 7 0;
   OpFrameWillRender env_ok].

(** A frame rendered and committed, never released. *)
Definition unreleased_frame : list op := [OpFrameWillRender env_ok; OpFrameRendered].

(** The buffer id a [BufferAllocation] event announces. *)
Definition announced (e : event) : option Z :=
  match e with
  | EvSendMessage _ (BufferAllocation _ id) => Some id
  | _ => None
  end.

(** ** The host end of the channel (ipc.cpp)

    [Host::initialize], [Host::deinitialize], [Host::socketFd],
    [Host::releaseClientFD] and [Host::receiveFileDescriptor] work on the
    descriptors of the socket pair.  Their system and GLib calls are
    recorded in a trace of their own. *)

Inductive syscall : Type :=
  | SysSocketpair (ret fd0 fd1 : Z)
  | SysSocketNewFromFd (fd : Z) (ok : bool)
  | SysCreateSource (fd : Z)
  | SysClose (fd : Z)
  | SysDup (fd ret : Z)
  | SysSourceDestroy
  | SysSocketUnref (fd : Z)
  | SysRecvmsg (sockfd : Z).

(** [m_socket] (the [GSocket], known by its descriptor), whether [m_source]
    and [m_handler] are set, and [m_clientFd]. *)
Record HostChannel : Type := mkHostChannel {
  hc_socket : option Z;
  hc_source : bool;
  hc_clientFd : Z;
  hc_handler : bool }.

(** [Host::initialize].  [sp_ret], [fd0] and [fd1] are what [socketpair]
    returns and leaves in [sockets]; [socket_ok] tells whether
    [g_socket_new_from_fd] yields a socket. *)
Definition Host_initialize (sp_ret fd0 fd1 : Z) (socket_ok : bool) (h : HostChannel)
    : HostChannel * list syscall :=
  let h := mkHostChannel (hc_socket h) (hc_source h) (hc_clientFd h) true in
  if sp_ret =? -1 then (h, [SysSocketpair sp_ret fd0 fd1])
  else if negb socket_ok then
    (mkHostChannel None (hc_source h) (hc_clientFd h) true,
     [SysSocketpair sp_ret fd0 fd1; SysSocketNewFromFd fd0 false;
      SysClose fd0; SysClose fd1])
  else
    (mkHostChannel (Some fd0) true fd1 true,
     [SysSocketpair sp_ret fd0 fd1; SysSocketNewFromFd fd0 true;
      SysCreateSource fd0]).

(** [Host::deinitialize]: only [m_handler] is reset. *)
Definition Host_deinitialize (h : HostChannel) : HostChannel * list syscall :=
  (mkHostChannel (hc_socket h) (hc_source h) (hc_clientFd h) false,
   (if hc_clientFd h =? -1 then [] else [SysClose (hc_clientFd h)]) ++
   (if hc_source h then [SysSourceDestroy] else []) ++
   (match hc_socket h with Some fd => [SysSocketUnref fd] | None => [] end)).

(** [Host::socketFd]. *)
Definition Host_socketFd (h : HostChannel) : Z :=
  match hc_socket h with
  | Some fd => fd
  | None => -1
  end.

(** [Host::releaseClientFD]; [dup_ret] is what [dup] returns. *)
Definition releaseClientFD (closeSourceFd : bool) (dup_ret : Z) (h : HostChannel)
    : Z * HostChannel * list syscall :=
  let fd := dup_ret in
  if closeSourceFd && negb (hc_clientFd h =? -1) then
    (fd, mkHostChannel (hc_socket h) (hc_source h) (-1) (hc_handler h),
     [SysDup (hc_clientFd h) dup_ret; SysClose (hc_clientFd h)])
  else (fd, h, [SysDup (hc_clientFd h) dup_ret]).

(** The [do ... while (result == -1 && errno == EINTR)] of
    [receiveFileDescriptor]; an outcome is what [recvmsg] returns, the
    [errno] it leaves, and the descriptor in the first control header if
    there is one. *)
Fixpoint recvmsg_retry (sockfd : Z) (outcomes : list (Z * Z * option Z))
    : outcome (Z * Z * option Z) * list syscall :=
  match outcomes with
  | [] => (NoReturn RetryForever, [])
  | (result, errno, cmsg) :: rest =>
      if (result =? -1) && (errno =? EINTR) then
        let '(o, calls) := recvmsg_retry sockfd rest in
        (o, SysRecvmsg sockfd :: calls)
      else (Returns (result, errno, cmsg), [SysRecvmsg sockfd])
  end.

(** [Host::receiveFileDescriptor].  Without a control header
    [CMSG_FIRSTHDR] is null and [memmove] reads through it. *)
Definition receiveFileDescriptor (h : HostChannel) (outcomes : list (Z * Z * option Z))
    : outcome Z * list syscall :=
  match recvmsg_retry (Host_socketFd h) outcomes with
  | (Returns (result, errno, cmsg), calls) =>
      if result =? -1 then (Returns (- errno), calls)
      else
        match cmsg with
        | Some fd => (Returns fd, calls)
        | None => (NoReturn InvalidDeref, calls)
        end
  | (NoReturn why, calls) => (NoReturn why, calls)
  end.

(** A run of [releaseClientFD] calls, each with its flag and the result of
    its [dup], followed by [Host::deinitialize]. *)
Fixpoint release_then_deinitialize (calls : list (bool * Z)) (h : HostChannel)
    : HostChannel * list syscall :=
  match calls with
  | [] => Host_deinitialize h
  | (closeSourceFd, dup_ret) :: rest =>
      let '(_, h', es) := releaseClientFD closeSourceFd dup_ret h in
      let '(h'', es') := release_then_deinitialize rest h' in
      (h'', es ++ es')
  end.

(** How often a trace closes descriptor [fd]. *)
Definition is_close (fd : Z) (c : syscall) : bool :=
  match c with
  | SysClose fd' => fd' =? fd
  | _ => false
  end.

Definition closes (fd : Z) (calls : list syscall) : nat :=
  length (filter (λ c, is_close fd c = true) calls).

(** ** EGLTarget::~EGLTarget

    The target at address [self] announces [UnregisterPool] and is gone;
    the registry is not told.  The shutdown of the target's own channel has
    no effect on the members modelled here. *)
Definition EGLTarget_delete (self : Z) (be : RendererBackend) : M RendererBackend :=
  t ← target_at self be;
  emit (EvSendMessage TargetIpc (UnregisterPool (poolID (buffers t))));;
  mret (mkRendererBackend (m_targetMap be) (delete self (targets be))).

(** ** Frames *)

(** One [frameWillRender] and [frameRendered] per environment, with no
    release in between. *)
Definition frames (envs : list RenderEnv) : list op :=
  envs ≫= λ e, [OpFrameWillRender e; OpFrameRendered].

(** The number of slots that are not locked. *)
Definition unlocked (pool : list Buffer) : nat :=
  length (filter (λ b, locked b = false) pool).

(** The events that release a handle, an image, or create the framebuffer. *)
Definition releases (h : Z) (e : event) : bool :=
  match e with
  | EvHardwareBufferRelease h' => h' =? h
  | _ => false
  end.

Definition destroys_image (i : Z) (e : event) : bool :=
  match e with
  | EvDestroyImage i' => i' =? i
  | _ => false
  end.

Definition generates_framebuffer (e : event) : bool :=
  match e with
  | EvGenFramebuffers _ => true
  | _ => false
  end.

Definition is_message (e : event) : bool :=
  match e with
  | EvSendMessage _ _ => true
  | _ => false
  end.

(** [buffers.current], when set, points at a slot of the pool that is not
    locked. *)
Definition current_unlocked (bs : Buffers) : Prop :=
  match current bs with
  | Some c => ∃ b, pool bs !! c = Some b ∧ locked b = false
  | None => True
  end.

(** ** More samples *)

(** A host whose channel is set up on descriptors 4 and 5. *)
Definition host_ready : HostChannel := mkHostChannel (Some 4) true 5 true.

(** A backend with an empty registry and one target, not yet initialised. *)
Definition backend_new : RendererBackend :=
  mkRendererBackend ∅ {[ 2000 := EGLTarget_new 1 ]}.

(** [backend7] with a second target, at address 3000, not yet initialised. *)
Definition backend_two : RendererBackend :=
  mkRendererBackend {[ 7 := 2000 ]}
    (<[ 3000 := EGLTarget_new 2 ]> {[ 2000 := saturated7 ]}).

(** A frame whose allocation fails, on a target without backend. *)
Definition failed_frame : list op := [OpFrameWillRender env_nomem; OpFrameRendered].

(** * Properties *)

Ltac run_m :=
  unfold mbind, M_bind, mret, M_ret, emit, halt, when, result, trace in *;
  simpl in *.

(** ** Selecting the current slot *)

Lemma firstUnlocked_None k pool :
  firstUnlocked k pool = None ↔ Forall (λ b, locked b = true) pool.
Proof.
  revert k; induction pool as [|b rest IH]; intros k; simpl.
  - split; [constructor | done].
  - destruct (locked b) eqn:Hb.
    + rewrite IH. split; [by constructor | by inversion 1].
    + split; [done | inversion 1; congruence].
Qed.

Lemma firstUnlocked_Some k pool i :
  firstUnlocked k pool = Some i ↔
  ∃ j b, i = (k + j)%nat ∧ pool !! j = Some b ∧ locked b = false ∧
         ∀ j' b', (j' < j)%nat → pool !! j' = Some b' → locked b' = true.
Proof.
  revert k; induction pool as [|b rest IH]; intros k; simpl.
  - split; [done | by intros (j & b & _ & ? & _)].
  - destruct (locked b) eqn:Hb.
    + rewrite IH. split.
      * intros (j & b0 & -> & Hj & Hl & Hlow).
        exists (S j), b0. split; [lia |]; split; [done |]; split; [done |].
        intros [|j'] b' Hlt Hj'; simpl in Hj'; [congruence |].
        apply (Hlow j'); [lia | done].
      * intros (j & b0 & -> & Hj & Hl & Hlow).
        destruct j as [|j]; simpl in Hj; [congruence |].
        exists j, b0. split; [lia |]; split; [done |]; split; [done |].
        intros j' b' Hlt Hj'. apply (Hlow (S j')); [lia | done].
    + split.
      * intros [= <-]. exists 0%nat, b. split; [lia |]; split; [done |]; split; [done |].
        intros; lia.
      * intros (j & b0 & -> & Hj & Hl & Hlow).
        destruct j as [|j]; [f_equal; lia |].
        specialize (Hlow 0%nat b ltac:(lia) eq_refl). congruence.
Qed.

Lemma selectCurrent_pool bs : pool (selectCurrent bs) = pool bs.
Proof. unfold selectCurrent. by destruct (firstUnlocked 0 (pool bs)). Qed.

Lemma selectCurrent_poolID bs : poolID (selectCurrent bs) = poolID bs.
Proof. unfold selectCurrent. by destruct (firstUnlocked 0 (pool bs)). Qed.

Lemma selectCurrent_lowest bs i b :
  pool bs !! i = Some b → locked b = false →
  (∀ j b', (j < i)%nat → pool bs !! j = Some b' → locked b' = true) →
  current (selectCurrent bs) = Some i.
Proof.
  intros Hi Hl Hlow. unfold selectCurrent.
  destruct (firstUnlocked 0 (pool bs)) as [k|] eqn:Hk.
  - simpl. f_equal. apply firstUnlocked_Some in Hk as (j & b0 & -> & Hj & Hl0 & Hlow0).
    simpl. destruct (Nat.lt_trichotomy j i) as [Hlt | [-> | Hgt]]; [| done |].
    + specialize (Hlow _ _ Hlt Hj). congruence.
    + specialize (Hlow0 _ _ Hgt Hi). congruence.
  - apply firstUnlocked_None in Hk.
    rewrite Forall_lookup in Hk. specialize (Hk _ _ Hi). simpl in Hk. congruence.
Qed.

Lemma selectCurrent_all_locked bs :
  Forall (λ b, locked b = true) (pool bs) → selectCurrent bs = bs.
Proof.
  intros Hall. apply firstUnlocked_None with (k := 0%nat) in Hall.
  unfold selectCurrent. by rewrite Hall.
Qed.

Lemma initializeRenderer_returns e t :
  ∃ r, initializeRenderer e t =
         (Returns (with_renderer r t),
          if initialized (renderer t) then [] else [EvGenFramebuffers (env_framebuffer e)])
       ∧ width r = width (renderer t) ∧ height r = height (renderer t).
Proof.
  unfold initializeRenderer. destruct t as [tg mb [ini w h fb] bs]; simpl.
  destruct ini; run_m; eexists; split; try reflexivity; done.
Qed.

Lemma sendHandleToUnixSocket_returns obj ch rets :
  Exists (λ r, r ≠ - EAGAIN) rets →
  ∃ es, sendHandleToUnixSocket obj ch rets = (Returns tt, es).
Proof.
  induction 1 as [r rest Hr | r rest _ IH]; simpl; run_m.
  - replace (r =? - EAGAIN) with false by (symmetry; apply Z.eqb_neq; done).
    rewrite orb_true_r. eauto.
  - destruct ((r =? 0) || negb (r =? - EAGAIN)); [eauto |].
    destruct IH as [es ->]. eauto.
Qed.

(** C1. When every slot of the pool is locked and no current slot is held,
    [frameWillRender] ends in [std::abort()]: it does not return, no slot is
    touched, and nothing is sent; the only call it can have made before is the
    one-time [glGenFramebuffers]. *)
Theorem frameWillRender_saturated_aborts (e : RenderEnv) (t : EGLTarget) :
  current (buffers t) = None →
  Forall (λ b, locked b = true) (pool (buffers t)) →
  frameWillRender e t =
    (NoReturn StdAbort,
     if initialized (renderer t) then [] else [EvGenFramebuffers (env_framebuffer e)]).
Proof.
  intros Hcur Hall. unfold frameWillRender.
  destruct (initializeRenderer_returns e t) as (r & -> & _).
  run_m. rewrite (selectCurrent_all_locked _ Hall), Hcur.
  by rewrite app_nil_r.
Qed.

Lemma sendHandleToUnixSocket_trace obj ch rets :
  Forall (λ e, ∃ r, e = EvSendHandleToUnixSocket obj ch r)
         (trace (sendHandleToUnixSocket obj ch rets)).
Proof.
  induction rets as [|r rest IH]; simpl; run_m; [constructor |].
  destruct ((r =? 0) || negb (r =? - EAGAIN)).
  - repeat constructor. eauto.
  - destruct (sendHandleToUnixSocket obj ch rest) as [[[]|why] es]; simpl in *;
      constructor; eauto.
Qed.

Lemma frameWillRender_selected e t c b :
  current (selectCurrent (buffers t)) = Some c →
  pool (buffers t) !! c = Some b →
  ∃ r, width r = width (renderer t) ∧ height r = height (renderer t) ∧
    let t1 := with_buffers (selectCurrent (buffers t)) (with_renderer r t) in
    frameWillRender e t =
      let '(o, es) := (if object b =? 0 then allocateCurrent e c b t1
                       else attachCurrent b t1) in
      (o, (if initialized (renderer t) then []
           else [EvGenFramebuffers (env_framebuffer e)]) ++ es).
Proof.
  intros Hc Hb. unfold frameWillRender.
  destruct (initializeRenderer_returns e t) as (r & -> & Hw & Hh).
  exists r. split; [done |]. split; [done |].
  run_m. rewrite Hc. unfold slot. rewrite selectCurrent_pool, Hb. run_m.
  destruct (object b =? 0).
  - destruct (allocateCurrent _ _ _ _) as [o es]. done.
  - done.
Qed.

Lemma count_app p es1 es2 : count p (es1 ++ es2) = (count p es1 + count p es2)%nat.
Proof. unfold count. by rewrite filter_app, length_app. Qed.

Lemma count_cons p e es :
  count p (e :: es) = ((if p e then 1 else 0) + count p es)%nat.
Proof.
  unfold count. rewrite filter_cons.
  destruct (decide (p e = true)) as [-> | Hn]; [done |].
  by destruct (p e).
Qed.

Lemma count_none p es : Forall (λ e, p e = false) es → count p es = 0%nat.
Proof.
  induction 1 as [|e es He _ IH]; [done |].
  by rewrite count_cons, He, IH.
Qed.

Lemma sendHandleToUnixSocket_count p obj ch rets :
  (∀ r, p (EvSendHandleToUnixSocket obj ch r) = false) →
  count p (trace (sendHandleToUnixSocket obj ch rets)) = 0%nat.
Proof.
  intros Hp. apply count_none.
  eapply Forall_impl; [apply sendHandleToUnixSocket_trace |].
  intros e [r ->]. apply Hp.
Qed.

Lemma allocateCurrent_returns e c b t t' :
  result (allocateCurrent e c b t) = Returns t' →
  same_session t t' ∧
  ∃ b', pool (buffers t') = <[c := b']> (pool (buffers t)) ∧
        bufferID b' = bufferID b ∧ locked b' = locked b ∧
        object b' = env_alloc_object e.
Proof.
  unfold allocateCurrent, attachCurrent, backend_of. simpl.
  destruct (negb (env_alloc_ret e =? 0) || (env_alloc_object e =? 0)).
  - run_m. intros [= <-]. split; [by constructor |].
    eexists. split; [reflexivity | by repeat split].
  - destruct (m_backend t) as [be|] eqn:Hbe.
    + run_m. destruct (sendHandleToUnixSocket _ _ _) as [[[]|why] es]; simpl; [| done].
    intros [= <-]. split; [by constructor |]. simpl.
    eexists. split; [apply list_insert_insert_eq | by repeat split].
    + run_m. done.
Qed.

Lemma allocateCurrent_count p e c b t :
  (∀ o ch r, p (EvSendHandleToUnixSocket o ch r) = false) →
  (∀ x, p (EvCreateImage (env_alloc_object e) x) = false) →
  (∀ x y, p (EvGenRenderbuffers x y) = false) →
  (∀ x, p (EvBindRenderbuffer x) = false) →
  (∀ x, p (EvImageTargetRenderbufferStorage x) = false) →
  (∀ x y, p (EvRenderbufferStorage x y) = false) →
  (∀ x, p (EvBindFramebuffer x) = false) →
  (∀ a x, p (EvFramebufferRenderbuffer a x) = false) →
  (count p (trace (allocateCurrent e c b t)) ≤
   (if p (EvHardwareBufferAllocate (width (renderer t)) (height (renderer t)) c
            (env_alloc_ret e) (env_alloc_object e)) then 1 else 0) +
   (if negb (env_alloc_object e =? 0)%Z then
      match m_backend t with
      | Some be =>
          if p (EvSendMessage (BackendIpc be)
                  (BufferAllocation (poolID (buffers t)) (bufferID b)))
          then 1 else 0
      | None => 0
      end
    else 0))%nat.
Proof.
  intros H1 H2 H3 H4 H5 H6 H7 H8.
  unfold allocateCurrent, attachCurrent, backend_of. simpl.
  destruct (negb (env_alloc_ret e =? 0)) eqn:Hret; simpl.
  - run_m. rewrite count_cons. unfold count; simpl. lia.
  - destruct (env_alloc_object e =? 0) eqn:Hobj; simpl.
    + run_m. rewrite count_cons. unfold count; simpl. lia.
    + destruct (m_backend t) as [be|] eqn:Hbe.
      * pose proof (sendHandleToUnixSocket_count p (env_alloc_object e) (BackendIpc be)
                      (env_sendHandle e) (H1 _ _)) as Hs.
        run_m.
        destruct (sendHandleToUnixSocket _ _ _) as [[[]|why] es]; simpl in *;
          rewrite ?count_cons, ?count_app, ?count_cons, ?H2, ?H3, ?H4, ?H5, ?H6, ?H7, ?H8, ?Hs;
          unfold count; simpl; lia.
      * run_m. rewrite ?count_cons, ?H2, ?H3, ?H4, ?H5, ?H6. unfold count; simpl. lia.
Qed.

Lemma attachCurrent_spec b t :
  attachCurrent b t =
    (Returns t,
     [EvBindFramebuffer (framebuffer (renderer t));
      EvFramebufferRenderbuffer GL_COLOR_ATTACHMENT0 (gl_colorBuffer b);
      EvFramebufferRenderbuffer GL_DEPTH_ATTACHMENT (gl_dsBuffer b);
      EvFramebufferRenderbuffer GL_STENCIL_ATTACHMENT (gl_dsBuffer b)]).
Proof. reflexivity. Qed.

Lemma allocateCurrent_can_return e c b t :
  is_Some (m_backend t) →
  Exists (λ r, r ≠ - EAGAIN) (env_sendHandle e) →
  ∃ t', result (allocateCurrent e c b t) = Returns t'.
Proof.
  intros [be Hbe] Hex.
  unfold allocateCurrent, attachCurrent, backend_of. simpl.
  destruct (negb (env_alloc_ret e =? 0) || (env_alloc_object e =? 0)).
  - run_m. eauto.
  - rewrite Hbe.
    destruct (sendHandleToUnixSocket_returns (env_alloc_object e) (BackendIpc be) _ Hex)
      as [es Hes].
    run_m. rewrite Hes. simpl. eauto.
Qed.

(** C2. When some slot is unlocked, [frameWillRender] makes the unlocked slot
    of lowest index the current one: the scan of lines 273-279 selects it,
    every return of [frameWillRender] has it as [buffers.current], the call
    never ends in [std::abort()], and it does return once the session has its
    backend and the hand-over of a new handle is not retried forever. *)
Theorem frameWillRender_selects_lowest_unlocked
    (e : RenderEnv) (t : EGLTarget) (i : nat) (b : Buffer) :
  pool (buffers t) !! i = Some b →
  locked b = false →
  (∀ j b', (j < i)%nat → pool (buffers t) !! j = Some b' → locked b' = true) →
  current (selectCurrent (buffers t)) = Some i ∧
  (∀ t', result (frameWillRender e t) = Returns t' → current (buffers t') = Some i) ∧
  result (frameWillRender e t) ≠ NoReturn StdAbort ∧
  (is_Some (m_backend t) → Exists (λ r, r ≠ - EAGAIN) (env_sendHandle e) →
   ∃ t', result (frameWillRender e t) = Returns t' ∧ current (buffers t') = Some i).
Proof.
  intros Hi Hl Hlow.
  pose proof (selectCurrent_lowest _ _ _ Hi Hl Hlow) as Hsel.
  destruct (frameWillRender_selected e t i b Hsel Hi) as (r & _ & _ & Hfwr).
  simpl in Hfwr. rewrite Hfwr. clear Hfwr.
  set (t1 := with_buffers (selectCurrent (buffers t)) (with_renderer r t)).
  assert (Hcur1 : current (buffers t1) = Some i) by done.
  assert (Hret : ∀ t', result (if object b =? 0 then allocateCurrent e i b t1
                               else attachCurrent b t1) = Returns t' →
                       current (buffers t') = Some i).
  { intros t'. destruct (object b =? 0).
    - intros [[] _]%allocateCurrent_returns. congruence.
    - rewrite attachCurrent_spec. simpl. by intros [= <-]. }
  split; [done |]. split; [| split].
  - intros t'. destruct (if object b =? 0 then _ else _) as [o es] eqn:Hrun.
    simpl. intros ->. by apply Hret.
  - destruct (object b =? 0).
    + unfold allocateCurrent, attachCurrent, backend_of. simpl.
      destruct (negb (env_alloc_ret e =? 0) || (env_alloc_object e =? 0)); [done |].
      destruct (m_backend t); run_m; [| done].
      induction (env_sendHandle e) as [|x rest IH]; simpl; [done |].
      destruct ((x =? 0) || negb (x =? - EAGAIN)); simpl; [done |].
      destruct (sendHandleToUnixSocket _ _ rest) as [[[]|why] es]; simpl in *; done.
    + by rewrite attachCurrent_spec.
  - intros Hbe Hex.
    assert (∃ t', result (if object b =? 0 then allocateCurrent e i b t1
                          else attachCurrent b t1) = Returns t') as [t' Ht'].
    { destruct (object b =? 0); [by apply allocateCurrent_can_return |].
      rewrite attachCurrent_spec. eauto. }
    exists t'. specialize (Hret _ Ht').
    destruct (if object b =? 0 then _ else _) as [o es]. done.
Qed.

(** ** Release *)

Lemma set_locked_same b : set_locked (locked b) b = b.
Proof. by destruct b. Qed.

Lemma unlockFirst_first id pool i b :
  pool !! i = Some b → bufferID b = id →
  (∀ j b', (j < i)%nat → pool !! j = Some b' → bufferID b' ≠ id) →
  unlockFirst id pool = <[i := set_locked false b]> pool.
Proof.
  revert i; induction pool as [|b0 rest IH]; intros i Hi Hid Hlow; [done |].
  simpl. destruct i as [|i]; simpl in *.
  - injection Hi as ->. by rewrite (proj2 (Z.eqb_eq _ _) Hid).
  - assert (bufferID b0 ≠ id) as Hne by (apply (Hlow 0%nat); [lia | done]).
    rewrite (proj2 (Z.eqb_neq _ _) Hne). f_equal.
    apply IH; [done | done |].
    intros j b' Hlt Hj. apply (Hlow (S j)); [lia | done].
Qed.

Lemma unlockFirst_absent id pool :
  (∀ i b, pool !! i = Some b → bufferID b ≠ id) → unlockFirst id pool = pool.
Proof.
  induction pool as [|b0 rest IH]; intros Hno; [done |].
  simpl. rewrite (proj2 (Z.eqb_neq _ _) (Hno 0%nat b0 eq_refl)). f_equal.
  apply IH. intros i b Hi. by apply (Hno (S i)).
Qed.

Lemma numbered_first pool i b :
  numbered pool → pool !! i = Some b →
  ∀ j b', (j < i)%nat → pool !! j = Some b' → bufferID b' ≠ bufferID b.
Proof.
  intros Hn Hi j b' Hlt Hj. rewrite (Hn _ _ Hi), (Hn _ _ Hj). lia.
Qed.

(** C4. [releaseBuffer] with a pool id other than the session's leaves the
    target as it is.  With the session's pool id the slot carrying the
    buffer id comes out with [locked] false and its id, handle, image and
    renderbuffers as they were, and nothing else of the target changes:
    that slot is the first such slot in index order, and the one such slot
    of a pool numbered by position.  If that slot was unlocked already, or
    no slot carries the id, the target is left as it is. *)
Theorem releaseBuffer_unlocks_matching_slot (t : EGLTarget) (poolId bufferId : Z) :
  (poolId ≠ poolID (buffers t) → releaseBuffer poolId bufferId t = t) ∧
  (poolId = poolID (buffers t) →
   (∀ i b,
      pool (buffers t) !! i = Some b → bufferID b = bufferId →
      (∀ j b', (j < i)%nat → pool (buffers t) !! j = Some b' → bufferID b' ≠ bufferId) →
      releaseBuffer poolId bufferId t =
        mkEGLTarget (target t) (m_backend t) (renderer t)
          (mkBuffers (current (buffers t)) (poolID (buffers t))
             (<[i := mkBuffer (bufferID b) false (object b) (egl_image b)
                      (gl_colorBuffer b) (gl_dsBuffer b)]> (pool (buffers t))))
      ∧ locked <$> pool (buffers (releaseBuffer poolId bufferId t)) !! i = Some false
      ∧ (∀ j, j ≠ i →
           pool (buffers (releaseBuffer poolId bufferId t)) !! j =
             pool (buffers t) !! j)
      ∧ (locked b = false → releaseBuffer poolId bufferId t = t)) ∧
   (numbered (pool (buffers t)) →
    ∀ i b,
      pool (buffers t) !! i = Some b → bufferID b = bufferId →
      releaseBuffer poolId bufferId t =
        mkEGLTarget (target t) (m_backend t) (renderer t)
          (mkBuffers (current (buffers t)) (poolID (buffers t))
             (<[i := mkBuffer (bufferID b) false (object b) (egl_image b)
                      (gl_colorBuffer b) (gl_dsBuffer b)]> (pool (buffers t))))
      ∧ locked <$> pool (buffers (releaseBuffer poolId bufferId t)) !! i = Some false) ∧
   ((∀ i b, pool (buffers t) !! i = Some b → bufferID b ≠ bufferId) →
    releaseBuffer poolId bufferId t = t)).
Proof.
  assert (Hfirst : ∀ i b,
            pool (buffers t) !! i = Some b → bufferID b = bufferId →
            (∀ j b', (j < i)%nat → pool (buffers t) !! j = Some b' →
                     bufferID b' ≠ bufferId) →
            releaseBuffer (poolID (buffers t)) bufferId t =
              mkEGLTarget (target t) (m_backend t) (renderer t)
                (mkBuffers (current (buffers t)) (poolID (buffers t))
                   (<[i := mkBuffer (bufferID b) false (object b) (egl_image b)
                            (gl_colorBuffer b) (gl_dsBuffer b)]> (pool (buffers t))))).
  { intros i b Hi Hid Hlow. unfold releaseBuffer. rewrite Z.eqb_refl. simpl.
    by rewrite (unlockFirst_first _ _ _ _ Hi Hid Hlow). }
  split.
  - intros Hne. unfold releaseBuffer.
    by rewrite (proj2 (Z.eqb_neq (poolID (buffers t)) poolId)) by congruence.
  - intros ->. split; [| split].
    + intros i b Hi Hid Hlow. rewrite (Hfirst i b Hi Hid Hlow). simpl.
      assert (Hlt : (i < length (pool (buffers t)))%nat) by (by eapply lookup_lt_Some).
      split; [done |]. split; [by rewrite list_lookup_insert_eq |].
      split; [intros j Hj; by rewrite list_lookup_insert_ne |].
      intros Hl. rewrite list_insert_id; [by destruct t as [? ? ? []] |].
      rewrite Hi. f_equal. destruct b; simpl in *. by subst.
    + intros Hn i b Hi Hid.
      assert (Hlow : ∀ j b', (j < i)%nat → pool (buffers t) !! j = Some b' →
                             bufferID b' ≠ bufferId).
      { rewrite <- Hid. by apply numbered_first. }
      rewrite (Hfirst i b Hi Hid Hlow). simpl. split; [done |].
      rewrite list_lookup_insert_eq by (by eapply lookup_lt_Some). done.
    + intros Hno. unfold releaseBuffer. rewrite Z.eqb_refl. simpl.
      rewrite unlockFirst_absent by done. by destruct t as [? ? ? []].
Qed.

(** ** Purge *)

Lemma destroyBuffer_eq b :
  destroyBuffer b =
    (Returns (freed b),
     call_if_set (gl_colorBuffer b) (EvDeleteRenderbuffers (gl_colorBuffer b)) ++
     call_if_set (gl_dsBuffer b) (EvDeleteRenderbuffers (gl_dsBuffer b)) ++
     call_if_set (egl_image b) (EvDestroyImage (egl_image b)) ++
     call_if_set (object b) (EvHardwareBufferRelease (object b))).
Proof.
  unfold destroyBuffer, freed, call_if_set. destruct b as [id l o im c d]; simpl.
  by destruct (c =? 0), (d =? 0), (im =? 0), (o =? 0).
Qed.

Lemma elem_of_call_if_set x e e' :
  e' ∈ call_if_set x e ↔ x ≠ 0 ∧ e' = e.
Proof.
  unfold call_if_set. destruct (Z.eqb_spec x 0) as [-> | Hx].
  - rewrite elem_of_nil. split; [done | by intros [? _]].
  - rewrite list_elem_of_singleton. split; [by intros -> | by intros [_ ->]].
Qed.

Lemma destroyBuffer_spec b :
  ∃ es, destroyBuffer b = (Returns (freed b), es) ∧
    (gl_colorBuffer b ≠ 0 → EvDeleteRenderbuffers (gl_colorBuffer b) ∈ es) ∧
    (gl_dsBuffer b ≠ 0 → EvDeleteRenderbuffers (gl_dsBuffer b) ∈ es) ∧
    (egl_image b ≠ 0 → EvDestroyImage (egl_image b) ∈ es) ∧
    (object b ≠ 0 → EvHardwareBufferRelease (object b) ∈ es) ∧
    (∀ ch m, EvSendMessage ch m ∉ es).
Proof.
  eexists. split; [apply destroyBuffer_eq |].
  rewrite !elem_of_app, !elem_of_call_if_set.
  split_and!; [tauto | tauto | tauto | tauto |].
  intros ch m. rewrite !elem_of_app, !elem_of_call_if_set.
  intros [[_ ?] | [[_ ?] | [[_ ?] | [_ ?]]]]; discriminate.
Qed.

Lemma destroyBufferPool_spec pool :
  ∃ es, destroyBufferPool pool = (Returns (freed <$> pool), es) ∧
    (∀ b, b ∈ pool →
       (gl_colorBuffer b ≠ 0 → EvDeleteRenderbuffers (gl_colorBuffer b) ∈ es) ∧
       (gl_dsBuffer b ≠ 0 → EvDeleteRenderbuffers (gl_dsBuffer b) ∈ es) ∧
       (egl_image b ≠ 0 → EvDestroyImage (egl_image b) ∈ es) ∧
       (object b ≠ 0 → EvHardwareBufferRelease (object b) ∈ es)) ∧
    (∀ ch m, EvSendMessage ch m ∉ es).
Proof.
  induction pool as [|b rest (es & IH & Hin & Hno)]; simpl.
  - exists []. split; [done |]. split; [by intros ? ?%elem_of_nil |].
    intros ch m. apply not_elem_of_nil.
  - destruct (destroyBuffer_spec b) as (es0 & Hb & H1 & H2 & H3 & H4 & Hno0).
    exists (es0 ++ es). rewrite Hb, IH. run_m. rewrite app_nil_r.
    split; [done |]. split.
    + intros b' [-> | Hb']%elem_of_cons; rewrite !elem_of_app.
      * split_and!; intros ?; left; auto.
      * destruct (Hin _ Hb') as (? & ? & ? & ?).
        split_and!; intros ?; right; auto.
    + intros ch m [?|?]%elem_of_app; [by eapply Hno0 | by eapply Hno].
Qed.

(** C5. [resize] to the render size the target already has returns at once:
    no field changes and nothing is sent.  [resize] to another size stores
    it, leaves every slot with its id and otherwise free ([locked] false,
    no [object], no image, no renderbuffers), having released every handle,
    image and renderbuffer the slots held, and then sends [PoolPurge] with
    the session's pool id on the target's channel; that is the only message
    of the call. *)
Theorem resize_purges_pool (w h : Z) (t : EGLTarget) :
  (width (renderer t) = w ∧ height (renderer t) = h →
   resize w h t = (Returns t, [])) ∧
  (¬ (width (renderer t) = w ∧ height (renderer t) = h) →
   ∃ es,
     resize w h t =
       (Returns
          (mkEGLTarget (target t) (m_backend t)
             (mkRenderer (initialized (renderer t)) w h (framebuffer (renderer t)))
             (mkBuffers (current (buffers t)) (poolID (buffers t))
                (freed <$> pool (buffers t)))),
        es ++ [EvSendMessage TargetIpc (PoolPurge (poolID (buffers t)))]) ∧
     (∀ b, b ∈ pool (buffers t) →
        (gl_colorBuffer b ≠ 0 → EvDeleteRenderbuffers (gl_colorBuffer b) ∈ es) ∧
        (gl_dsBuffer b ≠ 0 → EvDeleteRenderbuffers (gl_dsBuffer b) ∈ es) ∧
        (egl_image b ≠ 0 → EvDestroyImage (egl_image b) ∈ es) ∧
        (object b ≠ 0 → EvHardwareBufferRelease (object b) ∈ es)) ∧
     (∀ ch m, EvSendMessage ch m ∉ es)).
Proof.
  unfold resize. split.
  - intros [-> ->]. by rewrite !Z.eqb_refl.
  - intros Hne.
    destruct (Z.eqb_spec (width (renderer t)) w) as [Hw | Hw];
      destruct (Z.eqb_spec (height (renderer t)) h) as [Hh | Hh];
      try tauto; simpl;
      destruct (destroyBufferPool_spec (pool (buffers t))) as (es & -> & Hin & Hno);
      exists es; run_m; done.
Qed.

(** ** Commit *)

(** C8. [frameRendered] with a current slot held locks that slot and clears
    [buffers.current].  It sends [BufferCommit] with the session's pool id
    and the slot's buffer id on the backend's channel exactly when the slot
    has its [object]; for a slot without one (its allocation failed) the call
    sends nothing. *)
Theorem frameRendered_commits_current (t : EGLTarget) (c : nat) (b : Buffer) :
  current (buffers t) = Some c →
  pool (buffers t) !! c = Some b →
  let t' := with_buffers
              (mkBuffers None (poolID (buffers t))
                 (<[c := set_locked true b]> (pool (buffers t)))) t in
  (object b = 0 → frameRendered t = (Returns t', [EvFlush])) ∧
  (object b ≠ 0 → ∀ be, m_backend t = Some be →
   frameRendered t =
     (Returns t',
      [EvFlush;
       EvSendMessage (BackendIpc be) (BufferCommit (poolID (buffers t)) (bufferID b))])) ∧
  (object b ≠ 0 → m_backend t = None →
   frameRendered t = (NoReturn InvalidDeref, [EvFlush])).
Proof.
  intros Hc Hb t'. unfold frameRendered, slot, backend_of. rewrite Hc, Hb.
  run_m. split; [| split].
  - intros ->. reflexivity.
  - intros Hobj be ->. rewrite (proj2 (Z.eqb_neq _ _) Hobj). reflexivity.
  - intros Hobj ->. rewrite (proj2 (Z.eqb_neq _ _) Hobj). reflexivity.
Qed.

(** ** The pool registry *)

Lemma handleMessage_registered
    (Message_size : Z) (be : RendererBackend) (poolId bufferId addr : Z) (t : EGLTarget) :
  m_targetMap be !! poolId = Some addr → targets be !! addr = Some t →
  RendererBackend_handleMessage Message_size (FrameComplete poolId) Message_size be =
    (Returns be, [EvDispatchFrameComplete (target t)]) ∧
  RendererBackend_handleMessage Message_size (ReleaseBuffer poolId bufferId)
      Message_size be =
    (Returns (mkRendererBackend (m_targetMap be)
                (<[addr := releaseBuffer poolId bufferId t]> (targets be))),
     []).
Proof.
  unfold RendererBackend_handleMessage, target_at. rewrite Z.eqb_refl. simpl.
  intros -> ->. done.
Qed.

Lemma registerEGLTarget_fresh (be : RendererBackend) (P T : Z) :
  m_targetMap be !! P = None →
  m_targetMap (registerEGLTarget P T be) !! P = Some T.
Proof.
  intros HP. unfold registerEGLTarget. rewrite HP. simpl. apply lookup_insert_eq.
Qed.

(** C10. Registering a target [T'] under a pool id that the registry maps to
    [T] already changes nothing: the registry is the one it was and the id
    still maps to [T].  A later [FrameComplete] for the id is dispatched on
    [T]'s target and a later [ReleaseBuffer] runs [releaseBuffer] on [T]. *)
Theorem registerEGLTarget_keeps_first
    (Message_size : Z) (be : RendererBackend) (P T T' : Z) :
  m_targetMap be !! P = Some T →
  registerEGLTarget P T' be = be ∧
  m_targetMap (registerEGLTarget P T' be) !! P = Some T ∧
  ∀ t bufferId,
    targets be !! T = Some t →
    RendererBackend_handleMessage Message_size (FrameComplete P) Message_size
        (registerEGLTarget P T' be) =
      (Returns be, [EvDispatchFrameComplete (target t)]) ∧
    RendererBackend_handleMessage Message_size (ReleaseBuffer P bufferId) Message_size
        (registerEGLTarget P T' be) =
      (Returns (mkRendererBackend (m_targetMap be)
                  (<[T := releaseBuffer P bufferId t]> (targets be))),
       []).
Proof.
  intros HP.
  assert (Hsame : registerEGLTarget P T' be = be)
    by (unfold registerEGLTarget; by rewrite HP).
  rewrite Hsame. split; [done |]. split; [done |].
  intros t bufferId Ht. by apply handleMessage_registered.
Qed.

(** C6. A [FrameComplete] or [ReleaseBuffer] frame whose pool id is not in
    [m_targetMap] ends [handleMessage] in [g_error], before anything else is
    done.  When the id is registered and the target it maps to is live,
    [FrameComplete] is passed on as one [dispatch_frame_complete] on that
    target and [ReleaseBuffer] as [releaseBuffer] on that target; nothing
    else changes. *)
Theorem handleMessage_dispatch
    (Message_size : Z) (be : RendererBackend) (poolId bufferId : Z) :
  (m_targetMap be !! poolId = None →
   RendererBackend_handleMessage Message_size (FrameComplete poolId) Message_size be =
     (NoReturn (GError poolId), []) ∧
   RendererBackend_handleMessage Message_size (ReleaseBuffer poolId bufferId)
       Message_size be =
     (NoReturn (GError poolId), [])) ∧
  (∀ addr t,
     m_targetMap be !! poolId = Some addr → targets be !! addr = Some t →
     RendererBackend_handleMessage Message_size (FrameComplete poolId) Message_size be =
       (Returns be, [EvDispatchFrameComplete (target t)]) ∧
     RendererBackend_handleMessage Message_size (ReleaseBuffer poolId bufferId)
         Message_size be =
       (Returns (mkRendererBackend (m_targetMap be)
                   (<[addr := releaseBuffer poolId bufferId t]> (targets be))),
        [])).
Proof.
  split.
  - unfold RendererBackend_handleMessage. rewrite Z.eqb_refl. simpl.
    intros ->. done.
  - intros addr t. apply handleMessage_registered.
Qed.

(** ** Channel callbacks *)

(** What a callback does with a read, by the value the receive call
    returned.  With [G_IO_IN] set the frame goes to the handler exactly when
    that value is the frame size (and a handler is installed: without one
    the client skips the upcall and the host uses a null pointer); the
    result is then what [handleMessage] yields.  Any other value from zero
    up leaves the handler untouched and the callback attached ([TRUE]), with
    nothing reported; [-1] detaches the callback ([FALSE]). *)
Theorem socketCallback_frames
    (Message_size : Z) (H : Type) (HH : Handler H)
    (condition : Z) (rx : Received) (host : Host H) (client : Client H) :
  0 ≤ Message_size →
  Z.land condition G_IO_IN ≠ 0 →
  (recv_len rx = Message_size →
   (∀ h, host_handler host = Some h →
      Host_socketCallback Message_size condition rx host =
        (h' ← handleMessage (recv_buffer rx) Message_size h;
         mret (true, mkHost (host_socket host) (Some h')))) ∧
   (host_handler host = None →
      Host_socketCallback Message_size condition rx host =
        (NoReturn InvalidDeref, [])) ∧
   (∀ h, m_handler client = Some h →
      Client_socketCallback Message_size condition rx client =
        (h' ← handleMessage (recv_buffer rx) Message_size h;
         mret (true, mkClient (m_socket client) (Some h')))) ∧
   (m_handler client = None →
      Client_socketCallback Message_size condition rx client =
        (Returns (true, client), []))) ∧
  (0 ≤ recv_len rx → recv_len rx ≠ Message_size →
   Host_socketCallback Message_size condition rx host = (Returns (true, host), []) ∧
   Client_socketCallback Message_size condition rx client =
     (Returns (true, client), [])) ∧
  (recv_len rx = -1 →
   Host_socketCallback Message_size condition rx host = (Returns (false, host), []) ∧
   result (Client_socketCallback Message_size condition rx client) =
     Returns (false, client)).
Proof.
  intros Hsize Hcond.
  unfold Host_socketCallback, Client_socketCallback.
  rewrite (proj2 (Z.eqb_neq _ _) Hcond).
  split; [| split].
  - intros Hlen. rewrite Hlen, Z.eqb_refl.
    rewrite (proj2 (Z.eqb_neq Message_size (-1))) by lia.
    split; [| split; [| split]].
    + intros h ->. run_m.
      destruct (handleMessage (recv_buffer rx) Message_size h) as [[h'|why] es];
        by rewrite ?app_nil_r.
    + intros ->. done.
    + intros h ->. run_m.
      destruct (handleMessage (recv_buffer rx) Message_size h) as [[h'|why] es];
        by rewrite ?app_nil_r.
    + intros ->. done.
  - intros Hpos Hne.
    rewrite (proj2 (Z.eqb_neq (recv_len rx) (-1))) by lia.
    rewrite (proj2 (Z.eqb_neq _ _) Hne). done.
  - intros ->. simpl. split; [done |].
    by destruct (recv_connection_closed rx).
Qed.

(** ** Sending a file descriptor *)

Lemma sendmsg_retry_interrupted sockfd fd n outcomes :
  sendmsg_retry sockfd fd (replicate n (-1, EINTR) ++ outcomes) =
    let '(o, es) := sendmsg_retry sockfd fd outcomes in
    (o, replicate n (EvSendmsg sockfd fd) ++ es).
Proof.
  induction n as [|n IH]; simpl.
  - by destruct (sendmsg_retry sockfd fd outcomes).
  - run_m. rewrite IH. by destruct (sendmsg_retry sockfd fd outcomes).
Qed.

(** C9. [sendFileDescriptor] calls [sendmsg] again for as long as it fails
    with [EINTR], each time on the client's socket with the same descriptor.
    At the first other outcome it returns: [0] if [sendmsg] did not fail, and
    minus the error code, a negative number, if it failed otherwise.  While
    every outcome so far is an [EINTR] failure it has not returned. *)
Theorem sendFileDescriptor_retries_on_EINTR
    (H : Type) (c : Client H) (fd : Z) (n : nat) :
  sendFileDescriptor c fd (replicate n (-1, EINTR)) =
    (NoReturn RetryForever, replicate n (EvSendmsg (socketFd c) fd)) ∧
  ∀ r e rest,
    ¬ (r = -1 ∧ e = EINTR) →
    sendFileDescriptor c fd (replicate n (-1, EINTR) ++ (r, e) :: rest) =
      (Returns (if r =? -1 then - e else 0),
       replicate (S n) (EvSendmsg (socketFd c) fd)) ∧
    (r = -1 → 0 < e → (if r =? -1 then - e else 0) < 0).
Proof.
  unfold sendFileDescriptor. split.
  - rewrite <- (app_nil_r (replicate n (-1, EINTR))), sendmsg_retry_interrupted.
    simpl. run_m. by rewrite ?app_nil_r.
  - intros r e rest Hne. split.
    + rewrite sendmsg_retry_interrupted. simpl.
      assert ((r =? -1) && (e =? EINTR) = false) as ->.
      { apply andb_false_iff.
        destruct (Z.eqb_spec r (-1)), (Z.eqb_spec e EINTR); tauto. }
      run_m. rewrite ?app_nil_r.
      replace (replicate n (EvSendmsg (socketFd c) fd) ++ [EvSendmsg (socketFd c) fd])
        with (replicate (S n) (EvSendmsg (socketFd c) fd))
        by (rewrite replicate_S_end; done).
      destruct (r =? -1); simpl; by rewrite app_nil_r.
    + intros -> He. simpl. lia.
Qed.

(** ** Allocation within a purge epoch *)

Lemma frameWillRender_cases e t :
  let init := if initialized (renderer t) then []
              else [EvGenFramebuffers (env_framebuffer e)] in
  (current (selectCurrent (buffers t)) = None ∧
   frameWillRender e t = (NoReturn StdAbort, init)) ∨
  (∃ c, current (selectCurrent (buffers t)) = Some c ∧
        pool (buffers t) !! c = None ∧
        frameWillRender e t = (NoReturn InvalidDeref, init)) ∨
  (∃ c b r, current (selectCurrent (buffers t)) = Some c ∧
            pool (buffers t) !! c = Some b ∧
            width r = width (renderer t) ∧ height r = height (renderer t) ∧
            let t1 := with_buffers (selectCurrent (buffers t)) (with_renderer r t) in
            frameWillRender e t =
              let '(o, es) := (if object b =? 0 then allocateCurrent e c b t1
                               else attachCurrent b t1) in
              (o, init ++ es)).
Proof.
  intros init.
  destruct (current (selectCurrent (buffers t))) as [c|] eqn:Hc.
  - destruct (pool (buffers t) !! c) as [b|] eqn:Hb.
    + right; right.
      destruct (frameWillRender_selected e t c b Hc Hb) as (r & Hw & Hh & Hrun).
      by exists c, b, r.
    + right; left. exists c. split; [done |]. split; [done |].
      unfold frameWillRender.
      destruct (initializeRenderer_returns e t) as (r & -> & _).
      run_m. rewrite Hc. unfold slot. rewrite selectCurrent_pool, Hb.
      run_m. by rewrite app_nil_r.
  - left. split; [done |].
    unfold frameWillRender.
    destruct (initializeRenderer_returns e t) as (r & -> & _).
    run_m. rewrite Hc. by rewrite app_nil_r.
Qed.

Lemma count_init p e (ini : bool) :
  (∀ x, p (EvGenFramebuffers x) = false) →
  count p (if ini then [] else [EvGenFramebuffers (env_framebuffer e)]) = 0%nat.
Proof. intros Hp. destruct ini; [done |]. by rewrite count_cons, Hp. Qed.

Lemma numbered_insert pool c b :
  numbered pool → (∀ b0, pool !! c = Some b0 → bufferID b = bufferID b0) →
  numbered (<[c := b]> pool).
Proof.
  intros Hn Hid i b' Hi.
  destruct (decide (c = i)) as [-> | Hne].
  - destruct (pool !! i) as [b0|] eqn:Hb0.
    + rewrite list_lookup_insert_eq in Hi by (by eapply lookup_lt_Some).
      injection Hi as <-. rewrite (Hid _ eq_refl). by apply Hn.
    + rewrite list_insert_ge in Hi by (by apply lookup_ge_None). congruence.
  - rewrite list_lookup_insert_ne in Hi by done. by apply Hn.
Qed.

Lemma unlockFirst_lookup id pool i b :
  pool !! i = Some b →
  ∃ l, unlockFirst id pool !! i = Some (set_locked l b).
Proof.
  revert i; induction pool as [|b0 rest IH]; intros i Hi; [done |].
  simpl. destruct (bufferID b0 =? id).
  - destruct i as [|i]; simpl in *.
    + injection Hi as ->. eauto.
    + exists (locked b). by rewrite set_locked_same.
  - destruct i as [|i]; simpl in *.
    + injection Hi as ->. exists (locked b). by rewrite set_locked_same.
    + by apply IH.
Qed.

Lemma unlockFirst_numbered id pool : numbered pool → numbered (unlockFirst id pool).
Proof.
  intros Hn i b' Hi.
  destruct (pool !! i) as [b|] eqn:Hb.
  - destruct (unlockFirst_lookup id pool i b Hb) as [l Hl].
    rewrite Hl in Hi. injection Hi as <-. simpl. by apply Hn.
  - assert (length (unlockFirst id pool) = length pool) as Hlen.
    { clear. induction pool as [|b0 rest IH]; [done |].
      simpl. destruct (bufferID b0 =? id); simpl; by rewrite ?IH. }
    apply lookup_ge_None in Hb. apply lookup_lt_Some in Hi. lia.
Qed.

Lemma keeps_handle_refl b : keeps_handle b b.
Proof. by split. Qed.

Lemma step_ok_unchanged i b t es :
  numbered (pool (buffers t)) → pool (buffers t) !! i = Some b →
  count (announces (bufferID b)) es = 0%nat → count (creates i) es = 0%nat →
  step_ok i b t (Returns t, es).
Proof.
  intros Hn Hi Ha Hc. simpl. split_and!; [done | done | done |].
  exists b. rewrite Ha, Hc. split_and!; [done | apply keeps_handle_refl | lia | lia].
Qed.

Lemma frameWillRender_step_ok e t i b :
  numbered (pool (buffers t)) → pool (buffers t) !! i = Some b →
  step_ok i b t (frameWillRender e t).
Proof.
  intros Hn Hi.
  assert (Hinit : ∀ p, (∀ x, p (EvGenFramebuffers x) = false) →
            count p (if initialized (renderer t) then []
                     else [EvGenFramebuffers (env_framebuffer e)]) = 0%nat)
    by (intros p Hp; by apply count_init).
  destruct (frameWillRender_cases e t)
    as [[_ ->] | [(c & _ & _ & ->) | (c & bc & r & Hc & Hbc & Hw & Hh & ->)]].
  - simpl. rewrite !Hinit by done. lia.
  - simpl. rewrite !Hinit by done. lia.
  - set (t1 := with_buffers (selectCurrent (buffers t)) (with_renderer r t)).
    assert (Hpool1 : pool (buffers t1) = pool (buffers t))
      by apply selectCurrent_pool.
    destruct (Z.eqb_spec (object bc) 0) as [Hobj | Hobj].
    + pose proof (allocateCurrent_returns e c bc t1) as Hret.
      pose proof (allocateCurrent_count (announces (bufferID b)) e c bc t1
                    ltac:(done) ltac:(done) ltac:(done) ltac:(done)
                    ltac:(done) ltac:(done) ltac:(done) ltac:(done)) as Hann.
      pose proof (allocateCurrent_count (creates i) e c bc t1
                    ltac:(done) ltac:(done) ltac:(done) ltac:(done)
                    ltac:(done) ltac:(done) ltac:(done) ltac:(done)) as Hcre.
      simpl in Hann, Hcre.
      assert (Hann' : (count (announces (bufferID b)) (trace (allocateCurrent e c bc t1))
                       ≤ if (c =? i)%nat && negb (env_alloc_object e =? 0)%Z then 1 else 0)%nat).
      { etrans; [apply Hann |].
        destruct (Nat.eqb_spec c i) as [-> | Hne]; simpl.
        - destruct (negb (env_alloc_object e =? 0)); [| lia].
          destruct (m_backend t); [| lia]. destruct (bufferID bc =? bufferID b); lia.
        - destruct (negb (env_alloc_object e =? 0)); [| lia].
          destruct (m_backend t); [| lia].
          destruct (Z.eqb_spec (bufferID bc) (bufferID b)) as [Heq | ?]; [| lia].
          rewrite (Hn _ _ Hbc), (Hn _ _ Hi) in Heq. lia. }
      assert (Hcre' : (count (creates i) (trace (allocateCurrent e c bc t1))
                       ≤ if (c =? i)%nat && negb (env_alloc_object e =? 0)%Z then 1 else 0)%nat).
      { etrans; [apply Hcre |].
        destruct ((c =? i)%nat && negb (env_alloc_object e =? 0));
          destruct (negb (env_alloc_object e =? 0)); destruct (m_backend t); lia. }
      clear Hann Hcre.
      destruct (allocateCurrent e c bc t1) as [[t'|why] es] eqn:Hrun; simpl in *.
      * destruct (Hret t' eq_refl) as ([_ _ Hr _ _] & b' & Hpool' & Hid' & _ & Hobj').
        rewrite Hr. simpl. rewrite Hpool', Hpool1.
        split_and!; [done | done | |].
        { apply numbered_insert; [done |]. intros b0 Hb0. congruence. }
        rewrite !count_app, !Hinit by done. simpl.
        destruct (Nat.eqb_spec c i) as [-> | Hne].
        -- assert (bc = b) as -> by congruence.
           exists b'. rewrite list_lookup_insert_eq by (by eapply lookup_lt_Some).
           split; [done |]. split; [by split |].
           unfold budget at 2 4. rewrite Hobj. simpl.
           unfold budget. rewrite Hobj'.
           simpl in Hann', Hcre'.
           destruct (env_alloc_object e =? 0); simpl in *; lia.
        -- exists b. rewrite list_lookup_insert_ne by done.
           split; [done |]. split; [apply keeps_handle_refl |].
           simpl in Hann', Hcre'. lia.
      * rewrite !count_app, !Hinit by done. simpl.
        destruct (Nat.eqb_spec c i) as [-> | Hne]; simpl in *; [| lia].
        assert (bc = b) as -> by congruence.
        unfold budget. rewrite Hobj. simpl.
        destruct (negb (env_alloc_object e =? 0)); lia.
    + rewrite attachCurrent_spec. simpl.
      split_and!; [by rewrite Hw | by rewrite Hh | by rewrite selectCurrent_pool |].
      exists b. rewrite selectCurrent_pool.
      split; [done |]. split; [apply keeps_handle_refl |].
      rewrite !count_app, !Hinit by done.
      unfold count; simpl. lia.
Qed.

Lemma frameRendered_step_ok t i b :
  numbered (pool (buffers t)) → pool (buffers t) !! i = Some b →
  step_ok i b t (frameRendered t).
Proof.
  intros Hn Hi. unfold frameRendered, slot, backend_of.
  destruct (current (buffers t)) as [c|]; [| run_m; unfold count; simpl; lia].
  destruct (pool (buffers t) !! c) as [bc|] eqn:Hbc;
    [| run_m; unfold count; simpl; lia].
  assert (Hstate : ∀ es,
            count (announces (bufferID b)) es = 0%nat → count (creates i) es = 0%nat →
            step_ok i b t
              (Returns (with_buffers
                          (mkBuffers None (poolID (buffers t))
                             (<[c := set_locked true bc]> (pool (buffers t)))) t), es)).
  { intros es Ha Hc. simpl. rewrite Ha, Hc.
    split_and!; [done | done | |].
    { apply numbered_insert; [done |]. intros b0 Hb0. simpl. congruence. }
    destruct (decide (c = i)) as [-> | Hne].
    - assert (bc = b) as -> by congruence.
      exists (set_locked true b).
      rewrite list_lookup_insert_eq by (by eapply lookup_lt_Some).
      split_and!; [done | by split | unfold budget; simpl; lia
                  | unfold budget; simpl; lia].
    - exists b. rewrite list_lookup_insert_ne by done.
      split_and!; [done | apply keeps_handle_refl | lia | lia]. }
  run_m. destruct (object bc =? 0); simpl.
  - exact (Hstate [EvFlush] eq_refl eq_refl).
  - destruct (m_backend t) as [be|]; simpl.
    + exact (Hstate [EvFlush; EvSendMessage (BackendIpc be)
                                (BufferCommit (poolID (buffers t)) (bufferID bc))]
               eq_refl eq_refl).
    + unfold count; simpl; lia.
Qed.

Lemma releaseBuffer_step_ok poolId bufferId t i b :
  numbered (pool (buffers t)) → pool (buffers t) !! i = Some b →
  step_ok i b t (mret (releaseBuffer poolId bufferId t)).
Proof.
  intros Hn Hi. unfold releaseBuffer.
  destruct (negb (poolID (buffers t) =? poolId)); [by apply step_ok_unchanged |].
  run_m. split_and!; [done | done | by apply unlockFirst_numbered |].
  destruct (unlockFirst_lookup bufferId _ _ _ Hi) as [l Hl].
  exists (set_locked l b).
  split_and!; [done | by split | unfold count, budget; simpl; lia
              | unfold count, budget; simpl; lia].
Qed.

Lemma step_step_ok o t i b :
  keeps_pool (width (renderer t)) (height (renderer t)) o = true →
  numbered (pool (buffers t)) → pool (buffers t) !! i = Some b →
  step_ok i b t (step o t).
Proof.
  intros Hk Hn Hi. destruct o as [e | | poolId bufferId | w h |]; simpl in *.
  - by apply frameWillRender_step_ok.
  - by apply frameRendered_step_ok.
  - by apply releaseBuffer_step_ok.
  - unfold resize. rewrite Hk. by apply step_ok_unchanged.
  - done.
Qed.

Lemma run_within_budget ops : ∀ t i b,
  forallb (keeps_pool (width (renderer t)) (height (renderer t))) ops = true →
  numbered (pool (buffers t)) → pool (buffers t) !! i = Some b →
  (count (announces (bufferID b)) (trace (run ops t)) ≤ budget b)%nat ∧
  (count (creates i) (trace (run ops t)) ≤ budget b)%nat ∧
  ∀ t', result (run ops t) = Returns t' →
        ∃ b', pool (buffers t') !! i = Some b' ∧ keeps_handle b b'.
Proof.
  induction ops as [|o rest IH]; intros t i b Hk Hn Hi; simpl in *.
  - split_and!; [unfold count; simpl; lia | unfold count; simpl; lia |].
    intros t' [= <-]. exists b. split; [done | apply keeps_handle_refl].
  - apply andb_true_iff in Hk as [Hk Hrest].
    pose proof (step_step_ok o t i b Hk Hn Hi) as Hstep.
    destruct (step o t) as [[t1|why] es1]; simpl in Hstep; run_m;
      [| destruct Hstep; split_and!; [done | done | done]].
    destruct Hstep as (Hw & Hh & Hn1 & b1 & Hi1 & [Hid1 Hobj1] & Ha & Hc).
    rewrite <- Hw, <- Hh in Hrest.
    destruct (IH t1 i b1 Hrest Hn1 Hi1) as (Ha2 & Hc2 & Hret2).
    rewrite Hid1 in Ha2.
    destruct (run rest t1) as [o2 es2]; simpl in *.
    rewrite !count_app. split_and!; [lia | lia |].
    intros t' ->. destruct (Hret2 t' eq_refl) as (b' & Hi' & Hid' & Hobj').
    exists b'. split; [done |]. split; [congruence |].
    intros Hb. rewrite Hobj', Hobj1; [done | done |]. rewrite Hobj1; done.
Qed.

(** An event cannot be in a trace that is written out and has no such event. *)
Ltac absent_from_trace H :=
  repeat (apply elem_of_cons in H as [H | H]; [discriminate H |]);
  by apply elem_of_nil in H.

(** C3. Between two purges a slot is given a handle at most once and is
    announced at most once.  A [frameWillRender] that makes a slot with a
    handle current calls neither the allocator nor sends a
    [BufferAllocation], and leaves the whole pool as it was.  Over any
    sequence of [frameWillRender], [frameRendered], [releaseBuffer] and
    same-size [resize] calls on a pool numbered by position, the allocator
    leaves a handle in slot [i] at most once and [BufferAllocation] for its
    id is sent at most once; if the slot had its handle at the start neither
    happens at all, and the slot still has that same handle at the end. *)
Theorem handle_allocated_once_per_epoch (t : EGLTarget) (i : nat) (b : Buffer) :
  pool (buffers t) !! i = Some b →
  (∀ e,
     current (selectCurrent (buffers t)) = Some i → object b ≠ 0 →
     ∃ r es, frameWillRender e t =
               (Returns (with_buffers (selectCurrent (buffers t)) (with_renderer r t)), es) ∧
             (∀ w h slot ret obj, EvHardwareBufferAllocate w h slot ret obj ∉ es) ∧
             (∀ ch poolId bufferId,
                EvSendMessage ch (BufferAllocation poolId bufferId) ∉ es)) ∧
  (∀ ops,
     numbered (pool (buffers t)) →
     forallb (keeps_pool (width (renderer t)) (height (renderer t))) ops = true →
     (count (creates i) (trace (run ops t)) ≤ 1)%nat ∧
     (count (announces (bufferID b)) (trace (run ops t)) ≤ 1)%nat ∧
     (object b ≠ 0 →
      count (creates i) (trace (run ops t)) = 0%nat ∧
      count (announces (bufferID b)) (trace (run ops t)) = 0%nat ∧
      ∀ t', result (run ops t) = Returns t' →
            ∃ b', pool (buffers t') !! i = Some b' ∧ object b' = object b)).
Proof.
  intros Hi. split.
  - intros e Hc Hobj.
    destruct (frameWillRender_selected e t i b Hc Hi) as (r & _ & _ & Hrun).
    simpl in Hrun. rewrite (proj2 (Z.eqb_neq _ _) Hobj), attachCurrent_spec in Hrun.
    exists r. eexists. split; [exact Hrun |].
    split.
    + intros w h s ret obj Hin. apply elem_of_app in Hin as [Hin | Hin].
      * destruct (initialized (renderer t)); absent_from_trace Hin.
      * absent_from_trace Hin.
    + intros ch p id Hin. apply elem_of_app in Hin as [Hin | Hin].
      * destruct (initialized (renderer t)); absent_from_trace Hin.
      * absent_from_trace Hin.
  - intros ops Hn Hk.
    destruct (run_within_budget ops t i b Hk Hn Hi) as (Ha & Hc & Hret).
    assert (budget b ≤ 1)%nat as Hb1 by (unfold budget; destruct (object b =? 0); lia).
    split_and!; [lia | lia |].
    intros Hobj.
    assert (budget b = 0)%nat as Hb0
      by (unfold budget; by rewrite (proj2 (Z.eqb_neq _ _) Hobj)).
    split_and!; [lia | lia |].
    intros t' Ht'. destruct (Hret t' Ht') as (b' & Hi' & _ & Hobj').
    exists b'. split; [done |]. by apply Hobj'.
Qed.

(** ** The pool keeps its shape *)

Lemma numbered_freed pool : numbered pool → numbered (freed <$> pool).
Proof.
  intros Hn i b' Hi. rewrite list_lookup_fmap in Hi.
  destruct (pool !! i) as [b|] eqn:Hb; [| done].
  injection Hi as <-. simpl. by apply Hn.
Qed.

Lemma unlockFirst_length id pool : length (unlockFirst id pool) = length pool.
Proof.
  induction pool as [|b rest IH]; [done |].
  simpl. destruct (bufferID b =? id); simpl; by rewrite ?IH.
Qed.

Lemma frameWillRender_pool_shape e t t' :
  result (frameWillRender e t) = Returns t' →
  length (pool (buffers t')) = length (pool (buffers t)) ∧
  (numbered (pool (buffers t)) → numbered (pool (buffers t'))).
Proof.
  destruct (frameWillRender_cases e t)
    as [[_ ->] | [(c & _ & _ & ->) | (c & bc & r & Hc & Hbc & _ & _ & ->)]];
    [done | done |].
  set (t1 := with_buffers (selectCurrent (buffers t)) (with_renderer r t)).
  assert (Hpool1 : pool (buffers t1) = pool (buffers t)) by apply selectCurrent_pool.
  destruct (object bc =? 0).
  - pose proof (allocateCurrent_returns e c bc t1 t') as Hret.
    destruct (allocateCurrent e c bc t1) as [o es]. simpl in *. intros ->.
    destruct (Hret eq_refl) as (_ & b' & -> & Hid & _). rewrite Hpool1.
    split; [apply length_insert |].
    intros Hn. apply numbered_insert; [done |]. intros b0 Hb0. congruence.
  - rewrite attachCurrent_spec. simpl. intros [= <-]. by rewrite Hpool1.
Qed.

Lemma step_pool_shape o t t' :
  result (step o t) = Returns t' →
  length (pool (buffers t')) = length (pool (buffers t)) ∧
  (numbered (pool (buffers t)) → numbered (pool (buffers t'))).
Proof.
  destruct o as [e | | poolId bufferId | w h |]; simpl.
  - apply frameWillRender_pool_shape.
  - unfold frameRendered, slot, backend_of.
    destruct (current (buffers t)) as [c|]; [| done].
    destruct (pool (buffers t) !! c) as [bc|] eqn:Hbc; [| done].
    run_m. destruct (object bc =? 0); simpl; [| destruct (m_backend t); simpl; [| done]].
    all: intros [= <-]; simpl; split; [apply length_insert |];
      intros Hn; apply numbered_insert; [done |]; intros b0 Hb0; simpl; congruence.
  - intros [= <-]. unfold releaseBuffer.
    destruct (negb (poolID (buffers t) =? poolId)); [done |]. simpl.
    split; [apply unlockFirst_length | apply unlockFirst_numbered].
  - unfold resize.
    destruct ((width (renderer t) =? w) && (height (renderer t) =? h));
      [by intros [= <-] |].
    simpl. destruct (destroyBufferPool_spec (pool (buffers t))) as (es & -> & _).
    run_m. intros [= <-]. simpl.
    split; [apply length_fmap | apply numbered_freed].
  - unfold deinitialize.
    destruct (destroyBufferPool_spec (pool (buffers t))) as (es & -> & _).
    run_m. destruct (negb (framebuffer (renderer t) =? 0)); simpl;
      intros [= <-]; simpl; (split; [apply length_fmap | apply numbered_freed]).
Qed.

Lemma run_pool_shape ops : ∀ t t',
  result (run ops t) = Returns t' →
  length (pool (buffers t')) = length (pool (buffers t)) ∧
  (numbered (pool (buffers t)) → numbered (pool (buffers t'))).
Proof.
  induction ops as [|o rest IH]; intros t t'; simpl.
  - by intros [= <-].
  - pose proof (step_pool_shape o t) as Hstep.
    destruct (step o t) as [[t1|why] es1]; run_m; [| done].
    destruct (Hstep t1 eq_refl) as [Hlen1 Hn1].
    pose proof (IH t1 t') as Hrest.
    destruct (run rest t1) as [o2 es2]; simpl in *. intros ->.
    destruct (Hrest eq_refl) as [Hlen2 Hn2].
    split; [congruence | auto].
Qed.

Lemma EGLTarget_new_numbered tg : numbered (pool (buffers (EGLTarget_new tg))).
Proof.
  intros i b. simpl.
  destruct i as [|[|[|[|i]]]]; simpl; intros [= <-]; reflexivity.
Qed.

(** X21. Whatever is called on a target after its construction, its pool
    has four slots and slot [i] has id [i]. *)
Lemma pool_of_four tg ops t' :
  result (run ops (EGLTarget_new tg)) = Returns t' →
  length (pool (buffers t')) = 4%nat ∧ numbered (pool (buffers t')).
Proof.
  intros [Hlen Hn]%run_pool_shape. split; [done |].
  apply Hn, EGLTarget_new_numbered.
Qed.

(** * Scenarios and instances *)

Lemma allocated7_numbered : numbered (pool (buffers allocated7)).
Proof.
  intros i b. simpl.
  destruct i as [|[|[|[|i]]]]; simpl; intros [= <-]; reflexivity.
Qed.

(** The host's reply assigns pool 7: the target stores it, is entered in
    the registry, and answers with [RegisterPool]. *)
Example initialize_assigns_pool :
  initialize 32 2000 1000 640 480 (mkReceived 32 (PoolConstructionReply 7) false)
    (mkRendererBackend ∅ {[ 2000 := EGLTarget_new 1 ]}) =
  (Returns (mkRendererBackend {[ 7 := 2000 ]} {[ 2000 := session7 ]}),
   [EvSendMessage (BackendIpc 1000) PoolConstruction;
    EvSendMessage TargetIpc (RegisterPool 7)]).
Proof. vm_compute. reflexivity. Qed.

(** Acquire slot 0, commit, release, acquire again: one allocation, one
    announcement, one commit, and slot 0 is current again. *)
Example frame_cycle_reuses_slot_0 :
  ∃ t', run one_frame_cycle session7 = (Returns t',
    [EvGenFramebuffers 5;
     EvHardwareBufferAllocate 640 480 0 0 100;
     EvCreateImage 100 200;
     EvGenRenderbuffers 11 12;
     EvBindRenderbuffer 11;
     EvImageTargetRenderbufferStorage 200;
     EvBindRenderbuffer 12;
     EvRenderbufferStorage 640 480;
     EvSendMessage (BackendIpc 1000) (BufferAllocation 7 0);
     EvSendHandleToUnixSocket 100 (BackendIpc 1000) (- EAGAIN);
     EvSendHandleToUnixSocket 100 (BackendIpc 1000) 0;
     EvBindFramebuffer 5;
     EvFramebufferRenderbuffer GL_COLOR_ATTACHMENT0 11;
     EvFramebufferRenderbuffer GL_DEPTH_ATTACHMENT 12;
     EvFramebufferRenderbuffer GL_STENCIL_ATTACHMENT 12;
     EvFlush;
     EvSendMessage (BackendIpc 1000) (BufferCommit 7 0);
     EvBindFramebuffer 5;
     EvFramebufferRenderbuffer GL_COLOR_ATTACHMENT0 11;
     EvFramebufferRenderbuffer GL_DEPTH_ATTACHMENT 12;
     EvFramebufferRenderbuffer GL_STENCIL_ATTACHMENT 12])
  ∧ current (buffers t') = Some 0%nat.
Proof. eexists. split; vm_compute; reflexivity. Qed.

(** Four frames committed and none released: slots 0 to 3 are announced and
    locked in order, and the fifth [frameWillRender] aborts. *)
Example fifth_acquire_aborts :
  let four := unreleased_frame ++ unreleased_frame ++ unreleased_frame ++
              unreleased_frame in
  omap announced (trace (run four session7)) = [0; 1; 2; 3] ∧
  (∃ t4, result (run four session7) = Returns t4 ∧
         locked <$> pool (buffers t4) = [true; true; true; true] ∧
         current (buffers t4) = None) ∧
  result (run (four ++ [OpFrameWillRender env_ok]) session7) = NoReturn StdAbort.
Proof.
  split; [vm_compute; reflexivity |]. split; [| vm_compute; reflexivity].
  eexists. split; [vm_compute; reflexivity |]. split; reflexivity.
Qed.

(** ** Instances of the theorems *)

Lemma frameWillRender_saturated_aborts_witness :
  frameWillRender env_ok saturated7 = (NoReturn StdAbort, [EvGenFramebuffers 5]).
Proof.
  apply (frameWillRender_saturated_aborts env_ok saturated7).
  - reflexivity.
  - repeat constructor.
Defined.

Lemma frameWillRender_selects_lowest_unlocked_witness :
  current (selectCurrent (buffers allocated7)) = Some 0%nat ∧
  ∃ t', result (frameWillRender env_ok allocated7) = Returns t' ∧
        current (buffers t') = Some 0%nat.
Proof.
  destruct (frameWillRender_selects_lowest_unlocked env_ok allocated7 0
              (mkBuffer 0 false 100 200 11 12)) as (Hsel & _ & _ & Hret).
  - reflexivity.
  - reflexivity.
  - intros j b' Hj. lia.
  - split; [exact Hsel |]. apply Hret.
    + exists 1000. reflexivity.
    + apply Exists_cons_tl, Exists_cons_hd. discriminate.
Defined.

Lemma handle_allocated_once_per_epoch_witness :
  (∃ r es, frameWillRender env_ok allocated7 =
             (Returns (with_buffers (selectCurrent (buffers allocated7))
                         (with_renderer r allocated7)), es)) ∧
  count (creates 0) (trace (run one_frame_cycle allocated7)) = 0%nat ∧
  count (announces 0) (trace (run one_frame_cycle allocated7)) = 0%nat.
Proof.
  destruct (handle_allocated_once_per_epoch allocated7 0
              (mkBuffer 0 false 100 200 11 12) eq_refl) as [Hone Hrun].
  split.
  - destruct (Hone env_ok eq_refl) as (r & es & Hes & _); [discriminate |].
    exists r, es. exact Hes.
  - destruct (Hrun one_frame_cycle allocated7_numbered eq_refl) as (_ & _ & Hkept).
    destruct Hkept as (Hc & Ha & _); [discriminate |].
    split; [exact Hc | exact Ha].
Defined.

Lemma releaseBuffer_unlocks_matching_slot_witness :
  releaseBuffer 8 2 saturated7 = saturated7 ∧
  locked <$> pool (buffers saturated7) !! 2%nat = Some true ∧
  locked <$> pool (buffers (releaseBuffer 7 2 saturated7)) !! 2%nat = Some false ∧
  releaseBuffer 7 2 saturated7 =
    mkEGLTarget 1 (Some 1000) (mkRenderer false 640 480 0)
      (mkBuffers None 7
         [mkBuffer 0 true 0 0 0 0; mkBuffer 1 true 0 0 0 0;
          mkBuffer 2 false 0 0 0 0; mkBuffer 3 true 0 0 0 0]) ∧
  releaseBuffer 7 0 allocated7 = allocated7 ∧
  releaseBuffer 7 9 saturated7 = saturated7.
Proof.
  assert (Hlow : ∀ j b', (j < 2)%nat → pool (buffers saturated7) !! j = Some b' →
                         bufferID b' ≠ 2).
  { intros [|[|j]] b' Hj Hb; [| | lia];
      vm_compute in Hb; injection Hb as <-; discriminate. }
  destruct (releaseBuffer_unlocks_matching_slot saturated7 7 2) as [_ Hmatch].
  destruct (Hmatch eq_refl) as (Hslot & _ & Habsent2).
  destruct (Hslot 2%nat (mkBuffer 2 true 0 0 0 0) eq_refl eq_refl Hlow)
    as (Hresult & Hunlocked & _ & _).
  split; [| split; [| split; [| split; [| split]]]].
  - destruct (releaseBuffer_unlocks_matching_slot saturated7 8 2) as [Hother _].
    apply Hother. intros Heq. vm_compute in Heq. discriminate Heq.
  - reflexivity.
  - exact Hunlocked.
  - rewrite Hresult. reflexivity.
  - destruct (releaseBuffer_unlocks_matching_slot allocated7 7 0) as [_ Hmatch0].
    destruct (Hmatch0 eq_refl) as (Hslot0 & _ & _).
    destruct (Hslot0 0%nat (mkBuffer 0 false 100 200 11 12) eq_refl eq_refl)
      as (_ & _ & _ & Hnoop).
    + intros j b' Hj. lia.
    + apply Hnoop. reflexivity.
  - destruct (releaseBuffer_unlocks_matching_slot saturated7 7 9) as [_ Hmatch9].
    destruct (Hmatch9 eq_refl) as (_ & _ & Habsent).
    apply Habsent.
    intros [|[|[|[|i]]]] b Hb; vm_compute in Hb; try discriminate Hb;
      injection Hb as <-; discriminate.
Defined.

Lemma resize_purges_pool_witness :
  resize 640 480 allocated7 = (Returns allocated7, []) ∧
  ∃ es,
    resize 800 600 allocated7 =
      (Returns
         (mkEGLTarget 1 (Some 1000) (mkRenderer true 800 600 5)
            (mkBuffers None 7 (pool (buffers session7)))),
       es ++ [EvSendMessage TargetIpc (PoolPurge 7)]) ∧
    EvHardwareBufferRelease 100 ∈ es.
Proof.
  split.
  - apply (resize_purges_pool 640 480 allocated7). split; reflexivity.
  - destruct (resize_purges_pool 800 600 allocated7) as [_ Hpurge].
    destruct Hpurge as (es & Hrun & Hfreed & _).
    + intros [Hw _]. discriminate Hw.
    + exists es. split; [exact Hrun |].
      apply (Hfreed (mkBuffer 0 false 100 200 11 12)).
      * apply list_elem_of_here.
      * discriminate.
Defined.

Lemma frameRendered_commits_current_witness :
  frameRendered rendering7 =
    (Returns
       (with_buffers
          (mkBuffers None 7
             (<[0%nat := mkBuffer 0 true 100 200 11 12]> (pool (buffers rendering7))))
          rendering7),
     [EvFlush; EvSendMessage (BackendIpc 1000) (BufferCommit 7 0)]) ∧
  frameRendered unbacked7 =
    (Returns
       (with_buffers
          (mkBuffers None 7
             (<[0%nat := mkBuffer 0 true 0 0 0 0]> (pool (buffers unbacked7))))
          unbacked7),
     [EvFlush]).
Proof.
  split.
  - destruct (frameRendered_commits_current rendering7 0
                (mkBuffer 0 false 100 200 11 12) eq_refl eq_refl) as (_ & Hsent & _).
    apply Hsent; [discriminate | reflexivity].
  - destruct (frameRendered_commits_current unbacked7 0
                (mkBuffer 0 false 0 0 0 0) eq_refl eq_refl) as (Hnone & _ & _).
    apply Hnone. reflexivity.
Defined.

(** C8 as stated fails: a current slot whose allocation failed is committed
    without any [BufferCommit]; it is locked and [current] is cleared all the
    same. *)
Lemma frameRendered_without_handle_sends_no_commit :
  frameWillRender env_nomem session7 =
    (Returns unbacked7,
     [EvGenFramebuffers 5; EvHardwareBufferAllocate 640 480 0 (-12) 0]) ∧
  current (buffers unbacked7) = Some 0%nat ∧
  trace (frameRendered unbacked7) = [EvFlush] ∧
  (∀ ch poolId bufferId,
     EvSendMessage ch (BufferCommit poolId bufferId) ∉ trace (frameRendered unbacked7)) ∧
  ∃ t', result (frameRendered unbacked7) = Returns t' ∧
        locked <$> pool (buffers t') !! 0%nat = Some true ∧
        current (buffers t') = None.
Proof.
  split; [reflexivity |]. split; [reflexivity |]. split; [reflexivity |]. split.
  - intros ch poolId bufferId Hin.
    change (trace (frameRendered unbacked7)) with [EvFlush] in Hin.
    absent_from_trace Hin.
  - eexists. split; [reflexivity |]. split; reflexivity.
Qed.

Lemma handleMessage_dispatch_witness :
  RendererBackend_handleMessage 32 (FrameComplete 99) 32 backend7 =
    (NoReturn (GError 99), []) ∧
  RendererBackend_handleMessage 32 (ReleaseBuffer 99 0) 32 backend7 =
    (NoReturn (GError 99), []) ∧
  RendererBackend_handleMessage 32 (FrameComplete 7) 32 backend7 =
    (Returns backend7, [EvDispatchFrameComplete 1]) ∧
  RendererBackend_handleMessage 32 (ReleaseBuffer 7 2) 32 backend7 =
    (Returns (mkRendererBackend (m_targetMap backend7)
                (<[2000 := releaseBuffer 7 2 saturated7]> (targets backend7))),
     []).
Proof.
  destruct (handleMessage_dispatch 32 backend7 99 0) as [Hmissing _].
  destruct (Hmissing eq_refl) as [Hfc Hrb].
  destruct (handleMessage_dispatch 32 backend7 7 2) as [_ Hfound].
  destruct (Hfound 2000 saturated7 eq_refl eq_refl) as [Hfc' Hrb'].
  split; [exact Hfc |]. split; [exact Hrb |]. split; [exact Hfc' | exact Hrb'].
Defined.

Lemma registerEGLTarget_keeps_first_witness :
  registerEGLTarget 7 3000 backend7 = backend7 ∧
  m_targetMap (registerEGLTarget 7 3000 backend7) !! 7 = Some 2000 ∧
  RendererBackend_handleMessage 32 (FrameComplete 7) 32
      (registerEGLTarget 7 3000 backend7) =
    (Returns backend7, [EvDispatchFrameComplete 1]).
Proof.
  destruct (registerEGLTarget_keeps_first 32 backend7 7 2000 3000 eq_refl)
    as (Hsame & Hmap & Hdispatch).
  split; [exact Hsame |]. split; [exact Hmap |].
  destruct (Hdispatch saturated7 0 eq_refl) as [Hfc _]. exact Hfc.
Defined.

Lemma socketCallback_frames_witness :
  Client_socketCallback 32 G_IO_IN (mkReceived 32 (FrameComplete 7) false) client7 =
    (Returns (true, client7), [EvDispatchFrameComplete 1]) ∧
  Host_socketCallback 32 G_IO_IN (mkReceived 5 (FrameComplete 7) false) host7 =
    (Returns (true, host7), []) ∧
  Host_socketCallback 32 G_IO_IN (mkReceived (-1) (FrameComplete 7) true) host7 =
    (Returns (false, host7), []).
Proof.
  assert (Hsize : 0 ≤ 32) by lia.
  assert (Hcond : Z.land G_IO_IN G_IO_IN ≠ 0) by discriminate.
  split; [| split].
  - destruct (socketCallback_frames 32 RendererBackend Handler32
                G_IO_IN (mkReceived 32 (FrameComplete 7) false) host7 client7
                Hsize Hcond) as ((_ & _ & Hclient & _) & _ & _); [reflexivity |].
    rewrite (Hclient backend7 eq_refl). reflexivity.
  - destruct (socketCallback_frames 32 RendererBackend Handler32
                G_IO_IN (mkReceived 5 (FrameComplete 7) false) host7 client7
                Hsize Hcond) as (_ & Hpartial & _).
    destruct Hpartial as [Hhost _]; [simpl; lia | discriminate |]. exact Hhost.
  - destruct (socketCallback_frames 32 RendererBackend Handler32
                G_IO_IN (mkReceived (-1) (FrameComplete 7) true) host7 client7
                Hsize Hcond) as (_ & _ & Hfailed).
    destruct Hfailed as [Hhost _]; [reflexivity |]. exact Hhost.
Defined.

(** C7. The callbacks miss the zero-length read.  A receive returns 0 once
    the peer has closed the connection, and line 141 means to give up when
    nothing is read, but the test under that comment is [len == -1] alone:
    at a receive that returns 0 both callbacks leave the handler alone,
    report nothing and return [TRUE], so the source stays attached, exactly
    as for a five-byte read. *)
Lemma socketCallback_zero_read_stays_attached :
  Host_socketCallback 32 G_IO_IN (mkReceived 0 PoolConstruction false) host7 =
    (Returns (true, host7), []) ∧
  Client_socketCallback 32 G_IO_IN (mkReceived 0 PoolConstruction false) client7 =
    (Returns (true, client7), []) ∧
  Host_socketCallback 32 G_IO_IN (mkReceived 0 PoolConstruction false) host7 =
    Host_socketCallback 32 G_IO_IN (mkReceived 5 PoolConstruction false) host7 ∧
  Client_socketCallback 32 G_IO_IN (mkReceived 0 PoolConstruction false) client7 =
    Client_socketCallback 32 G_IO_IN (mkReceived 5 PoolConstruction false) client7.
Proof. repeat split; reflexivity. Qed.

Lemma sendFileDescriptor_retries_on_EINTR_witness :
  sendFileDescriptor client7 42 [(-1, EINTR); (-1, EINTR); (-1, 32); (1, 0)] =
    (Returns (-32), [EvSendmsg 3 42; EvSendmsg 3 42; EvSendmsg 3 42]) ∧
  sendFileDescriptor client7 42 [(-1, EINTR); (-1, EINTR); (1, 0)] =
    (Returns 0, [EvSendmsg 3 42; EvSendmsg 3 42; EvSendmsg 3 42]) ∧
  -32 < 0.
Proof.
  destruct (sendFileDescriptor_retries_on_EINTR RendererBackend client7 42 2)
    as [_ Hends].
  destruct (Hends (-1) 32 [(1, 0)]) as [Hfail Hneg].
  { intros [_ Herr]. discriminate Herr. }
  destruct (Hends 1 0 []) as [Hok _].
  { intros [Hres _]. discriminate Hres. }
  split; [exact Hfail |]. split; [exact Hok |].
  apply Hneg; [reflexivity | lia].
Defined.

(** * Further properties *)

(** ** Purge and teardown *)

Lemma count_call_if_set p x e :
  count p (call_if_set x e) = if x =? 0 then 0%nat else if p e then 1%nat else 0%nat.
Proof.
  unfold call_if_set. destruct (x =? 0); [done |].
  rewrite count_cons. unfold count. simpl. destruct (p e); lia.
Qed.

Lemma destroyBufferPool_trace pool :
  destroyBufferPool pool =
    (Returns (freed <$> pool), pool ≫= λ b, trace (destroyBuffer b)).
Proof.
  induction pool as [|b rest IH]; [done |].
  rewrite bind_cons. simpl. rewrite IH, destroyBuffer_eq. run_m.
  by rewrite app_nil_r.
Qed.

Lemma count_bind p (f : Buffer → list event) pool :
  count p (pool ≫= f) = sum_list_with (λ b, count p (f b)) pool.
Proof.
  induction pool as [|b rest IH]; [done |].
  rewrite bind_cons, count_app, IH. done.
Qed.

Lemma length_filter_sum {A} (P : A → Prop) `{∀ x, Decision (P x)} (l : list A) :
  length (filter P l) = sum_list_with (λ x, if decide (P x) then 1%nat else 0%nat) l.
Proof.
  induction l as [|x l IH]; [done |].
  rewrite filter_cons. simpl. destruct (decide (P x)); simpl; by rewrite IH.
Qed.

(** X1. [destroyBufferPool] hands every handle and every image the pool
    holds to its release call exactly once, never releases a null one, and
    run again on the pool it leaves makes no call at all. *)
Theorem destroyBufferPool_releases_each_once (pool : list Buffer) :
  (∀ h, h ≠ 0 →
     count (releases h) (trace (destroyBufferPool pool)) =
       length (filter (λ b, object b = h) pool)) ∧
  (∀ i, i ≠ 0 →
     count (destroys_image i) (trace (destroyBufferPool pool)) =
       length (filter (λ b, egl_image b = i) pool)) ∧
  count (releases 0) (trace (destroyBufferPool pool)) = 0%nat ∧
  count (destroys_image 0) (trace (destroyBufferPool pool)) = 0%nat ∧
  destroyBufferPool (freed <$> pool) = (Returns (freed <$> pool), []).
Proof.
  rewrite destroyBufferPool_trace. simpl.
  assert (Hrel : ∀ h b,
    count (releases h) (trace (destroyBuffer b)) =
      if object b =? 0 then 0%nat else if object b =? h then 1%nat else 0%nat).
  { intros h b. rewrite destroyBuffer_eq. simpl.
    rewrite !count_app, !count_call_if_set. simpl.
    destruct (gl_colorBuffer b =? 0), (gl_dsBuffer b =? 0), (egl_image b =? 0); lia. }
  assert (Himg : ∀ i b,
    count (destroys_image i) (trace (destroyBuffer b)) =
      if egl_image b =? 0 then 0%nat else if egl_image b =? i then 1%nat else 0%nat).
  { intros i b. rewrite destroyBuffer_eq. simpl.
    rewrite !count_app, !count_call_if_set. simpl.
    destruct (gl_colorBuffer b =? 0), (gl_dsBuffer b =? 0), (object b =? 0);
      destruct (egl_image b =? 0); lia. }
  split_and!.
  - intros h Hh. rewrite count_bind, length_filter_sum.
    induction pool as [|b rest IH]; [done |]. simpl. rewrite IH, Hrel. f_equal.
    destruct (decide (object b = h)) as [-> | Hne].
    + by rewrite Z.eqb_refl, (proj2 (Z.eqb_neq _ _) Hh).
    + rewrite (proj2 (Z.eqb_neq _ _) Hne). by destruct (object b =? 0).
  - intros i Hi. rewrite count_bind, length_filter_sum.
    induction pool as [|b rest IH]; [done |]. simpl. rewrite IH, Himg. f_equal.
    destruct (decide (egl_image b = i)) as [-> | Hne].
    + by rewrite Z.eqb_refl, (proj2 (Z.eqb_neq _ _) Hi).
    + rewrite (proj2 (Z.eqb_neq _ _) Hne). by destruct (egl_image b =? 0).
  - rewrite count_bind.
    induction pool as [|b rest IH]; [done |]. simpl. rewrite IH, Hrel.
    by destruct (object b =? 0).
  - rewrite count_bind.
    induction pool as [|b rest IH]; [done |]. simpl. rewrite IH, Himg.
    by destruct (egl_image b =? 0).
  - rewrite destroyBufferPool_trace. f_equal.
    + f_equal. rewrite <- list_fmap_compose. by apply list_fmap_ext.
    + induction pool as [|b rest IH]; [done |].
      rewrite fmap_cons, bind_cons, IH. reflexivity.
Qed.

Lemma destroyBuffer_no_message p b :
  (∀ x, p (EvDeleteRenderbuffers x) = false) →
  (∀ x, p (EvDestroyImage x) = false) →
  (∀ x, p (EvHardwareBufferRelease x) = false) →
  count p (trace (destroyBuffer b)) = 0%nat.
Proof.
  intros H1 H2 H3. rewrite destroyBuffer_eq. simpl.
  rewrite !count_app, !count_call_if_set, !H1, H2, H3.
  by destruct (gl_colorBuffer b =? 0), (gl_dsBuffer b =? 0), (egl_image b =? 0),
       (object b =? 0).
Qed.

Lemma destroyBufferPool_count p pool :
  (∀ x, p (EvDeleteRenderbuffers x) = false) →
  (∀ x, p (EvDestroyImage x) = false) →
  (∀ x, p (EvHardwareBufferRelease x) = false) →
  count p (pool ≫= λ b, trace (destroyBuffer b)) = 0%nat.
Proof.
  intros H1 H2 H3. rewrite count_bind.
  induction pool as [|b rest IH]; [done |].
  simpl. by rewrite IH, destroyBuffer_no_message.
Qed.

Lemma deinitialize_eq (t : EGLTarget) :
  deinitialize t =
    (Returns (mkEGLTarget (target t) (m_backend t)
                (mkRenderer (initialized (renderer t)) (width (renderer t))
                   (height (renderer t)) 0)
                (mkBuffers (current (buffers t)) (poolID (buffers t))
                   (freed <$> pool (buffers t)))),
     (pool (buffers t) ≫= λ b, trace (destroyBuffer b)) ++
     call_if_set (framebuffer (renderer t))
       (EvDeleteFramebuffers (framebuffer (renderer t)))).
Proof.
  unfold deinitialize, call_if_set. rewrite destroyBufferPool_trace.
  run_m. destruct (framebuffer (renderer t) =? 0); simpl; by rewrite ?app_nil_r.
Qed.

(** X2. [deinitialize] frees every slot and deletes the framebuffer if
    there is one, leaving the framebuffer name 0 and everything else as it
    was; unlike [resize] it sends no message, so the host is not told.  A
    second [deinitialize] makes no call and changes nothing. *)
Theorem deinitialize_silent_and_idempotent (t : EGLTarget) :
  let r := renderer t in
  let t' := mkEGLTarget (target t) (m_backend t)
              (mkRenderer (initialized r) (width r) (height r) 0)
              (mkBuffers (current (buffers t)) (poolID (buffers t))
                 (freed <$> pool (buffers t))) in
  deinitialize t =
    (Returns t',
     (pool (buffers t) ≫= λ b, trace (destroyBuffer b)) ++
     call_if_set (framebuffer r) (EvDeleteFramebuffers (framebuffer r))) ∧
  count is_message (trace (deinitialize t)) = 0%nat ∧
  deinitialize t' = (Returns t', []).
Proof.
  intros r t'. split_and!.
  - apply deinitialize_eq.
  - rewrite deinitialize_eq. simpl.
    rewrite count_app, count_call_if_set, destroyBufferPool_count by done.
    simpl. by destruct (framebuffer (renderer t) =? 0).
  - rewrite deinitialize_eq. subst t'. simpl. f_equal.
    + do 3 f_equal. rewrite <- list_fmap_compose. by apply list_fmap_ext.
    + rewrite app_nil_r.
      induction (pool (buffers t)) as [|b rest IH]; [done |].
      rewrite fmap_cons, bind_cons, IH. reflexivity.
Qed.

(** ** The renderer is set up once *)

Lemma frameWillRender_renderer e t t' :
  result (frameWillRender e t) = Returns t' →
  renderer t' =
    if initialized (renderer t) then renderer t
    else mkRenderer true (width (renderer t)) (height (renderer t)) (env_framebuffer e).
Proof.
  unfold frameWillRender, initializeRenderer.
  destruct t as [tg mb [ini w h fb] bs]; simpl.
  destruct ini; run_m.
  all: destruct (current (selectCurrent bs)) as [c|]; [| done].
  all: unfold slot; simpl; rewrite selectCurrent_pool.
  all: destruct (pool bs !! c) as [b|]; [| done]; run_m.
  all: destruct (object b =? 0).
  all: try (rewrite attachCurrent_spec; simpl; by intros [= <-]).
  all: match goal with
       | |- context [allocateCurrent ?e ?c ?b ?t1] =>
           pose proof (allocateCurrent_returns e c b t1 t') as Hret;
           destruct (allocateCurrent e c b t1) as [o es]; simpl in *;
           intros ->; by destruct (Hret eq_refl) as [[_ _ -> _ _] _]
       end.
Qed.

Lemma frameWillRender_generates e t :
  count generates_framebuffer (trace (frameWillRender e t)) =
    if initialized (renderer t) then 0%nat else 1%nat.
Proof.
  assert (Halloc : ∀ c b t1,
            count generates_framebuffer (trace (allocateCurrent e c b t1)) = 0%nat).
  { intros c b t1.
    pose proof (allocateCurrent_count generates_framebuffer e c b t1
                  ltac:(done) ltac:(done) ltac:(done) ltac:(done)
                  ltac:(done) ltac:(done) ltac:(done) ltac:(done)) as Hle.
    simpl in Hle. destruct (negb (env_alloc_object e =? 0)), (m_backend t1); lia. }
  destruct (frameWillRender_cases e t)
    as [[_ ->] | [(c & _ & _ & ->) | (c & bc & r & _ & _ & _ & _ & ->)]]; simpl.
  - by destruct (initialized (renderer t)).
  - by destruct (initialized (renderer t)).
  - set (t1 := with_buffers (selectCurrent (buffers t)) (with_renderer r t)).
    assert (count generates_framebuffer
              (trace (if object bc =? 0 then allocateCurrent e c bc t1
                      else attachCurrent bc t1)) = 0%nat) as Htail.
    { destruct (object bc =? 0); [apply Halloc | by rewrite attachCurrent_spec]. }
    destruct (if object bc =? 0 then _ else _) as [o es]. simpl in *.
    rewrite count_app, Htail. by destruct (initialized (renderer t)).
Qed.

Lemma frameRendered_renderer t t' :
  result (frameRendered t) = Returns t' →
  renderer t' = renderer t ∧
  count generates_framebuffer (trace (frameRendered t)) = 0%nat.
Proof.
  unfold frameRendered, slot, backend_of.
  destruct (current (buffers t)) as [c|]; [| done].
  destruct (pool (buffers t) !! c) as [b|]; [| done]. run_m.
  destruct (object b =? 0); simpl; [by intros [= <-] |].
  destruct (m_backend t); simpl; [by intros [= <-] | done].
Qed.

Lemma frameRendered_generates t :
  count generates_framebuffer (trace (frameRendered t)) = 0%nat.
Proof.
  unfold frameRendered, slot, backend_of.
  destruct (current (buffers t)) as [c|]; [| done].
  destruct (pool (buffers t) !! c) as [b|]; [| done]. run_m.
  destruct (object b =? 0); simpl; [done |].
  by destruct (m_backend t).
Qed.

Lemma step_renderer o t :
  (count generates_framebuffer (trace (step o t)) ≤
     if initialized (renderer t) then 0 else 1)%nat ∧
  ∀ t', result (step o t) = Returns t' →
    (count generates_framebuffer (trace (step o t)) +
       (if initialized (renderer t') then 0 else 1) ≤
     if initialized (renderer t) then 0 else 1)%nat ∧
    (initialized (renderer t) = true → initialized (renderer t') = true) ∧
    (initialized (renderer t) = true → framebuffer (renderer t) = 0 →
     framebuffer (renderer t') = 0).
Proof.
  destruct o as [e | | poolId bufferId | w h |]; simpl.
  - rewrite frameWillRender_generates. split; [done |].
    intros t' Hr%frameWillRender_renderer. rewrite Hr.
    destruct (initialized (renderer t)) eqn:Hini; simpl; by rewrite ?Hini.
  - rewrite frameRendered_generates. split; [lia |].
    intros t' [-> _]%frameRendered_renderer.
    split_and!; [lia | done | done].
  - split; [unfold count; simpl; lia |]. intros t' [= <-].
    assert (renderer (releaseBuffer poolId bufferId t) = renderer t) as ->.
    { unfold releaseBuffer. by destruct (negb _). }
    split_and!; [unfold count; simpl; lia | done | done].
  - unfold resize.
    destruct ((width (renderer t) =? w) && (height (renderer t) =? h)).
    + split; [unfold count; simpl; lia |]. intros t' [= <-].
      split_and!; [unfold count; simpl; lia | done | done].
    + simpl. rewrite destroyBufferPool_trace. run_m.
      rewrite count_app, destroyBufferPool_count by done.
      split; [unfold count; simpl; lia |]. intros t' [= <-]. simpl.
      split_and!; [unfold count; simpl; lia | done | done].
  - rewrite deinitialize_eq. simpl.
    rewrite count_app, count_call_if_set, destroyBufferPool_count by done. simpl.
    split; [destruct (framebuffer (renderer t) =? 0); lia |].
    intros t' [= <-]. simpl.
    split_and!; [destruct (framebuffer (renderer t) =? 0); lia | done | done].
Qed.

Lemma run_renderer ops : ∀ t,
  (count generates_framebuffer (trace (run ops t)) ≤
     if initialized (renderer t) then 0 else 1)%nat ∧
  ∀ t', result (run ops t) = Returns t' →
    (initialized (renderer t) = true → initialized (renderer t') = true) ∧
    (initialized (renderer t) = true → framebuffer (renderer t) = 0 →
     framebuffer (renderer t') = 0).
Proof.
  induction ops as [|o rest IH]; intros t; simpl.
  - split; [unfold count; simpl; destruct (initialized (renderer t)); lia |].
    by intros t' [= <-].
  - destruct (step_renderer o t) as [Hcount Hstep].
    destruct (step o t) as [[t1|why] es1]; run_m; [| done].
    destruct (Hstep t1 eq_refl) as (Hc1 & Hini1 & Hfb1).
    destruct (IH t1) as [Hcount2 Hrest].
    destruct (run rest t1) as [o2 es2]; simpl in *.
    rewrite count_app. split; [lia |].
    intros t' ->. destruct (Hrest t' eq_refl) as [Hini2 Hfb2].
    split; [auto |]. intros Hi Hf. auto.
Qed.

(** X3. Over any sequence of calls on a target [glGenFramebuffers] is
    called at most once, and not at all once the renderer is initialised:
    [renderer.initialized] is never reset, not even by [deinitialize]. *)
Theorem framebuffer_generated_at_most_once (ops : list op) (t : EGLTarget) :
  (count generates_framebuffer (trace (run ops t)) ≤ 1)%nat ∧
  (initialized (renderer t) = true →
   count generates_framebuffer (trace (run ops t)) = 0%nat ∧
   ∀ t', result (run ops t) = Returns t' → initialized (renderer t') = true).
Proof.
  destruct (run_renderer ops t) as [Hcount Hret].
  split; [destruct (initialized (renderer t)); lia |].
  intros Hini. rewrite Hini in Hcount. split; [lia |].
  intros t' Ht'. by apply (Hret t' Ht').
Qed.

(** X4. A target that was rendering and is deinitialised never gets a
    framebuffer again: whatever is called afterwards, the framebuffer name
    stays 0 and [glGenFramebuffers] is not called, so a later
    [frameWillRender] attaches its slot to framebuffer 0. *)
Theorem framebuffer_not_recreated_after_deinitialize
    (ops : list op) (t t' : EGLTarget) :
  initialized (renderer t) = true →
  result (run (OpDeinitialize :: ops) t) = Returns t' →
  framebuffer (renderer t') = 0 ∧
  initialized (renderer t') = true ∧
  count generates_framebuffer (trace (run (OpDeinitialize :: ops) t)) = 0%nat ∧
  ∀ b, attachCurrent b t' =
         (Returns t',
          [EvBindFramebuffer 0;
           EvFramebufferRenderbuffer GL_COLOR_ATTACHMENT0 (gl_colorBuffer b);
           EvFramebufferRenderbuffer GL_DEPTH_ATTACHMENT (gl_dsBuffer b);
           EvFramebufferRenderbuffer GL_STENCIL_ATTACHMENT (gl_dsBuffer b)]).
Proof.
  intros Hini Hrun.
  destruct (run_renderer (OpDeinitialize :: ops) t) as [Hcount _].
  rewrite Hini in Hcount.
  simpl in Hrun. rewrite deinitialize_eq in Hrun. run_m.
  set (t1 := mkEGLTarget _ _ _ _) in Hrun.
  destruct (run_renderer ops t1) as [_ Hret].
  destruct (run ops t1) as [o es] eqn:Hrest. simpl in Hrun. subst o.
  destruct (Hret t' eq_refl) as [Hini' Hfb'].
  assert (Hfb : framebuffer (renderer t') = 0) by (by apply Hfb').
  split_and!; [done | by apply Hini' | lia |].
  intros b. rewrite attachCurrent_spec. by rewrite Hfb.
Qed.

(** ** Frames *)

Lemma frameRendered_eq t c b :
  current (buffers t) = Some c → pool (buffers t) !! c = Some b →
  object b = 0 ∨ is_Some (m_backend t) →
  ∃ es, frameRendered t =
          (Returns (with_buffers
                      (mkBuffers None (poolID (buffers t))
                         (<[c := set_locked true b]> (pool (buffers t)))) t), es).
Proof.
  intros Hc Hb Hok. unfold frameRendered, slot, backend_of. rewrite Hc, Hb. run_m.
  destruct (Z.eqb_spec (object b) 0) as [Hobj | Hobj]; simpl; [eauto |].
  destruct Hok as [? | [be ->]]; [done |]. simpl. eauto.
Qed.

(** X5. Commit and release undo each other: after [frameRendered] has
    locked the current slot, [releaseBuffer] with the session's pool id and
    that slot's buffer id gives back the target as it was before the commit,
    with no current slot. *)
Theorem commit_then_release_restores_pool (t : EGLTarget) (c : nat) (b : Buffer) :
  numbered (pool (buffers t)) →
  current (buffers t) = Some c →
  pool (buffers t) !! c = Some b →
  locked b = false →
  object b = 0 ∨ is_Some (m_backend t) →
  ∃ t1 es,
    frameRendered t = (Returns t1, es) ∧
    locked <$> pool (buffers t1) !! c = Some true ∧
    releaseBuffer (poolID (buffers t)) (bufferID b) t1 =
      with_buffers (set_current None (buffers t)) t.
Proof.
  intros Hn Hc Hb Hl Hok.
  destruct (frameRendered_eq t c b Hc Hb Hok) as [es Hrun].
  eexists _, es. split; [exact Hrun |]. simpl.
  assert (Hlt : (c < length (pool (buffers t)))%nat) by (by eapply lookup_lt_Some).
  split; [by rewrite list_lookup_insert_eq |].
  unfold releaseBuffer. simpl. rewrite Z.eqb_refl. simpl.
  assert (Hn' : numbered (<[c := set_locked true b]> (pool (buffers t)))).
  { apply numbered_insert; [done |]. intros b0 Hb0. simpl. congruence. }
  rewrite (unlockFirst_first (bufferID b) _ c (set_locked true b)).
  - rewrite list_insert_insert_eq.
    replace (set_locked false (set_locked true b)) with b
      by (destruct b; simpl in *; by subst).
    rewrite list_insert_id by done. by destruct t as [? ? ? []].
  - by rewrite list_lookup_insert_eq.
  - done.
  - intros j b' Hj Hb'.
    eapply (numbered_first _ c (set_locked true b) Hn'); [| done | done].
    by rewrite list_lookup_insert_eq.
Qed.

(** X6. [frameRendered] needs a current slot: without one it reads through
    the null [buffers.current] right after [glFlush].  As every return of
    [frameRendered] clears [buffers.current], a second [frameRendered]
    without a [frameWillRender] in between does just that. *)
Theorem frameRendered_twice_dereferences_null (t : EGLTarget) :
  (current (buffers t) = None →
   frameRendered t = (NoReturn InvalidDeref, [EvFlush])) ∧
  (∀ t', result (frameRendered t) = Returns t' →
     current (buffers t') = None ∧
     frameRendered t' = (NoReturn InvalidDeref, [EvFlush])).
Proof.
  assert (Hnone : ∀ t0, current (buffers t0) = None →
                        frameRendered t0 = (NoReturn InvalidDeref, [EvFlush])).
  { intros t0 Hc. unfold frameRendered. by rewrite Hc. }
  split; [apply Hnone |].
  intros t' Hret.
  assert (current (buffers t') = None) as Hc.
  { revert Hret. unfold frameRendered, slot, backend_of.
    destruct (current (buffers t)) as [c|]; [| done].
    destruct (pool (buffers t) !! c) as [b|]; [| done]. run_m.
    destruct (object b =? 0); simpl; [by intros [= <-] |].
    destruct (m_backend t); simpl; [by intros [= <-] | done]. }
  split; [done | by apply Hnone].
Qed.

Lemma frameWillRender_fresh_slot e t i b be :
  pool (buffers t) !! i = Some b →
  current (selectCurrent (buffers t)) = Some i →
  object b = 0 →
  m_backend t = Some be →
  env_alloc_ret e = 0 → env_alloc_object e ≠ 0 →
  Exists (λ r, r ≠ - EAGAIN) (env_sendHandle e) →
  ∃ t' es,
    frameWillRender e t = (Returns t', es) ∧
    current (buffers t') = Some i ∧
    pool (buffers t') =
      <[i := mkBuffer (bufferID b) (locked b) (env_alloc_object e) (env_image e)
               (env_colorBuffer e) (env_dsBuffer e)]> (pool (buffers t)) ∧
    EvHardwareBufferAllocate (width (renderer t)) (height (renderer t)) i 0
      (env_alloc_object e) ∈ es ∧
    EvSendMessage (BackendIpc be)
      (BufferAllocation (poolID (buffers t)) (bufferID b)) ∈ es.
Proof.
  intros Hi Hsel Hobj Hbe Hret Hhandle Hex.
  destruct (frameWillRender_selected e t i b Hsel Hi) as (r & Hw & Hh & Hrun).
  simpl in Hrun. rewrite Hrun, Hobj. clear Hrun. simpl.
  destruct (sendHandleToUnixSocket_returns (env_alloc_object e) (BackendIpc be) _ Hex)
    as [hs Hhs].
  unfold allocateCurrent, attachCurrent, backend_of. simpl.
  rewrite Hret, (proj2 (Z.eqb_neq _ _) Hhandle), Hbe. simpl.
  rewrite selectCurrent_pool, selectCurrent_poolID, Hw, Hh.
  run_m. rewrite Hhs. simpl.
  eexists _, _. split; [reflexivity |]. simpl.
  split; [done |]. split; [by rewrite list_insert_insert_eq |].
  split.
  - apply elem_of_app. right. apply list_elem_of_here.
  - apply elem_of_app. right. do 7 apply list_elem_of_further. apply list_elem_of_here.
Qed.

(** X7. After a [resize] to another size the next [frameWillRender] starts
    afresh on slot 0: it asks the allocator for a buffer of the new size
    and, when that succeeds, announces the slot's id again with
    [BufferAllocation] and leaves the slot with the new handle. *)
Theorem resize_then_acquire_allocates_anew
    (w h : Z) (e : RenderEnv) (t : EGLTarget) (b : Buffer) (be : Z) :
  ¬ (width (renderer t) = w ∧ height (renderer t) = h) →
  pool (buffers t) !! 0%nat = Some b →
  m_backend t = Some be →
  env_alloc_ret e = 0 → env_alloc_object e ≠ 0 →
  Exists (λ r, r ≠ - EAGAIN) (env_sendHandle e) →
  ∃ t1 es1 t2 es2,
    resize w h t = (Returns t1, es1) ∧
    frameWillRender e t1 = (Returns t2, es2) ∧
    current (buffers t2) = Some 0%nat ∧
    pool (buffers t2) !! 0%nat =
      Some (mkBuffer (bufferID b) false (env_alloc_object e) (env_image e)
              (env_colorBuffer e) (env_dsBuffer e)) ∧
    EvHardwareBufferAllocate w h 0 0 (env_alloc_object e) ∈ es2 ∧
    EvSendMessage (BackendIpc be)
      (BufferAllocation (poolID (buffers t)) (bufferID b)) ∈ es2.
Proof.
  intros Hne Hb Hbe Hret Hobj Hex.
  assert ((width (renderer t) =? w) && (height (renderer t) =? h) = false) as Hdims.
  { apply andb_false_iff.
    destruct (Z.eqb_spec (width (renderer t)) w), (Z.eqb_spec (height (renderer t)) h);
      tauto. }
  unfold resize. rewrite Hdims. simpl. rewrite destroyBufferPool_trace. run_m.
  pose (t1 := mkEGLTarget (target t) (m_backend t)
                (mkRenderer (initialized (renderer t)) w h (framebuffer (renderer t)))
                (mkBuffers (current (buffers t)) (poolID (buffers t))
                   (freed <$> pool (buffers t)))).
  assert (Hb1 : pool (buffers t1) !! 0%nat = Some (freed b))
    by (simpl; by rewrite list_lookup_fmap, Hb).
  assert (Hsel : current (selectCurrent (buffers t1)) = Some 0%nat).
  { apply (selectCurrent_lowest _ 0 (freed b)); [done | done |]. intros; lia. }
  destruct (frameWillRender_fresh_slot e t1 0 (freed b) be Hb1 Hsel eq_refl Hbe
              Hret Hobj Hex) as (t2 & es2 & Hrun & Hcur & Hpool & Halloc & Hmsg).
  eexists t1, _, t2, es2. split; [reflexivity |]. split; [exact Hrun |].
  split; [exact Hcur |]. split; [| split; [exact Halloc | exact Hmsg]].
  rewrite Hpool. apply list_lookup_insert_eq. by eapply lookup_lt_Some.
Qed.

(** ** Saturation *)

Lemma unlocked_zero pool : unlocked pool = 0%nat ↔ Forall (λ b, locked b = true) pool.
Proof.
  unfold unlocked. induction pool as [|b rest IH]; [by split; [constructor |] |].
  rewrite filter_cons. destruct (decide (locked b = false)) as [Hb | Hb]; simpl.
  - split; [done |]. inversion 1; congruence.
  - rewrite IH. split.
    + intros. constructor; [by destruct (locked b) | done].
    + by inversion 1.
Qed.

Lemma unlocked_insert_locked pool i b b' :
  pool !! i = Some b → locked b = false → locked b' = true →
  (unlocked (<[i := b']> pool) + 1 = unlocked pool)%nat.
Proof.
  unfold unlocked. revert i; induction pool as [|b0 rest IH]; intros i Hi Hb Hb'; [done |].
  destruct i as [|i]; simpl in *.
  - injection Hi as ->. rewrite !filter_cons.
    destruct (decide (locked b' = false)); [congruence |].
    destruct (decide (locked b = false)); [simpl; lia | done].
  - rewrite !filter_cons. specialize (IH i Hi Hb Hb').
    destruct (decide (locked b0 = false)); simpl; lia.
Qed.

Lemma run_app ops1 ops2 t : run (ops1 ++ ops2) t = run ops1 t ≫= run ops2.
Proof.
  revert t; induction ops1 as [|o rest IH]; intros t; simpl.
  - run_m. by destruct (run ops2 t).
  - destruct (step o t) as [[t1|why] es1]; run_m; [| done].
    rewrite IH. run_m.
    destruct (run rest t1) as [[t2|why] es2]; [| done].
    destruct (run ops2 t2) as [o3 es3]. by rewrite app_assoc.
Qed.

Lemma frameWillRender_all_locked e t :
  current (buffers t) = None →
  Forall (λ b, locked b = true) (pool (buffers t)) →
  result (frameWillRender e t) = NoReturn StdAbort.
Proof.
  intros Hcur Hall. unfold frameWillRender.
  destruct (initializeRenderer_returns e t) as (r & -> & _).
  run_m. by rewrite (selectCurrent_all_locked _ Hall), Hcur.
Qed.

Lemma frame_locks_one_slot e t :
  is_Some (m_backend t) →
  Exists (λ r, r ≠ - EAGAIN) (env_sendHandle e) →
  (0 < unlocked (pool (buffers t)))%nat →
  ∃ t' es,
    run [OpFrameWillRender e; OpFrameRendered] t = (Returns t', es) ∧
    current (buffers t') = None ∧
    m_backend t' = m_backend t ∧
    (unlocked (pool (buffers t')) + 1 = unlocked (pool (buffers t)))%nat.
Proof.
  intros Hbe Hex Hpos.
  destruct (firstUnlocked 0 (pool (buffers t))) as [i|] eqn:Hfirst; cycle 1.
  { apply firstUnlocked_None, unlocked_zero in Hfirst. lia. }
  apply firstUnlocked_Some in Hfirst as (j & b & -> & Hi & Hl & Hlow). simpl in *.
  pose proof (selectCurrent_lowest _ _ _ Hi Hl Hlow) as Hsel.
  destruct (frameWillRender_selected e t j b Hsel Hi) as (r & _ & _ & Hfwr).
  simpl in Hfwr.
  set (t0 := with_buffers (selectCurrent (buffers t)) (with_renderer r t)) in Hfwr.
  assert (∃ t1 es1 b1,
            (if object b =? 0 then allocateCurrent e j b t0 else attachCurrent b t0) =
              (Returns t1, es1) ∧
            current (buffers t1) = Some j ∧ m_backend t1 = m_backend t ∧
            locked b1 = false ∧ pool (buffers t1) = <[j := b1]> (pool (buffers t)))
    as (t1 & es1 & b1 & Hstep & Hcur1 & Hbe1 & Hl1 & Hpool1).
  { destruct (object b =? 0).
    - destruct (allocateCurrent_can_return e j b t0 Hbe Hex) as [t1 Ht1].
      destruct (allocateCurrent_returns e j b t0 t1 Ht1)
        as ([_ Hb1 _ Hc1 _] & b1 & Hp1 & _ & Hlk & _).
      destruct (allocateCurrent e j b t0) as [o es1]. simpl in Ht1. subst o.
      exists t1, es1, b1. split; [done |]. split; [by rewrite Hc1 |].
      split; [by rewrite Hb1 |]. split; [congruence |].
      by rewrite Hp1; unfold t0; simpl; rewrite selectCurrent_pool.
    - rewrite attachCurrent_spec. eexists t0, _, b. split; [done |].
      split; [done |]. split; [done |]. split; [done |].
      unfold t0; simpl. by rewrite selectCurrent_pool, list_insert_id. }
  rewrite Hstep in Hfwr.
  assert (Hlt : (j < length (pool (buffers t)))%nat) by (by eapply lookup_lt_Some).
  assert (Hb1 : pool (buffers t1) !! j = Some b1)
    by (by rewrite Hpool1, list_lookup_insert_eq).
  destruct (frameRendered_eq t1 j b1 Hcur1 Hb1) as [es2 Hfr].
  { right. by rewrite Hbe1. }
  simpl. rewrite Hfwr. run_m. rewrite Hfr. simpl.
  eexists _, _. split; [reflexivity |]. simpl.
  split; [done |]. split; [done |].
  rewrite Hpool1, list_insert_insert_eq.
  by apply (unlocked_insert_locked _ j b).
Qed.

(** X8. The pool has no back-pressure: when as many frames are rendered and
    committed as there are unlocked slots, with no [releaseBuffer] in
    between, every frame goes through, every slot ends up locked, and the
    next [frameWillRender] ends in [std::abort()]. *)
Theorem unreleased_frames_saturate (envs : list RenderEnv) : ∀ (e : RenderEnv)
    (t : EGLTarget),
  is_Some (m_backend t) →
  current (buffers t) = None →
  Forall (λ e, Exists (λ r, r ≠ - EAGAIN) (env_sendHandle e)) envs →
  length envs = unlocked (pool (buffers t)) →
  ∃ t' es,
    run (frames envs) t = (Returns t', es) ∧
    Forall (λ b, locked b = true) (pool (buffers t')) ∧
    result (run (frames envs ++ [OpFrameWillRender e]) t) = NoReturn StdAbort.
Proof.
  induction envs as [|e0 envs IH]; intros e t Hbe Hcur Hex Hlen.
  - exists t, []. split; [done |].
    assert (Hall : Forall (λ b, locked b = true) (pool (buffers t)))
      by (by apply unlocked_zero).
    split; [done |]. simpl.
    pose proof (frameWillRender_all_locked e t Hcur Hall) as Habort.
    destruct (frameWillRender e t) as [o es]. simpl in Habort. subst o. done.
  - apply Forall_cons in Hex as [Hex0 Hex].
    destruct (frame_locks_one_slot e0 t Hbe Hex0) as (t1 & es1 & Hframe & Hcur1 & Hbe1 & Hcount).
    { simpl in Hlen. lia. }
    destruct (IH e t1) as (t' & es & Hrun & Hall & Habort).
    { by rewrite Hbe1. }
    { done. }
    { done. }
    { simpl in Hlen. lia. }
    assert (Hframes : frames (e0 :: envs) =
                        [OpFrameWillRender e0; OpFrameRendered] ++ frames envs)
      by (unfold frames; by rewrite bind_cons).
    exists t', (es1 ++ es). rewrite Hframes. split; [| split; [done |]].
    + rewrite run_app, Hframe. run_m. by rewrite Hrun.
    + rewrite <- app_assoc, run_app, Hframe. run_m.
      destruct (run (frames envs ++ [OpFrameWillRender e]) t1) as [o es']. 
      simpl in Habort. by subst o.
Qed.

(** ** The registry over a session's life *)

(** X9. [handleMessage] never edits the registry and never sends anything.
    A frame of another size than [Message::size] changes nothing at all;
    otherwise the one object that can change is the target registered for
    the pool id of a [ReleaseBuffer], to what [releaseBuffer] makes of it. *)
Theorem handleMessage_touches_only_addressed_target
    (Message_size : Z) (data : Message) (size : Z) (be be' : RendererBackend)
    (es : list event) :
  RendererBackend_handleMessage Message_size data size be = (Returns be', es) →
  m_targetMap be' = m_targetMap be ∧
  count is_message es = 0%nat ∧
  (size ≠ Message_size → be' = be ∧ es = []) ∧
  ∀ addr,
    targets be' !! addr = targets be !! addr ∨
    ∃ poolId bufferId t,
      data = ReleaseBuffer poolId bufferId ∧
      m_targetMap be !! poolId = Some addr ∧
      targets be !! addr = Some t ∧
      targets be' !! addr = Some (releaseBuffer poolId bufferId t).
Proof.
  unfold RendererBackend_handleMessage, target_at.
  destruct (Z.eqb_spec size Message_size) as [-> | Hsize]; simpl.
  - destruct data as [| | | | | | | poolId | poolId bufferId |];
      try (intros [= <- <-]; split_and!; [done | done | done | by left]).
    + destruct (m_targetMap be !! poolId) as [addr|]; [| done].
      destruct (targets be !! addr) as [t|]; run_m; [| done].
      intros [= <- <-]. split_and!; [done | done | done | by left].
    + destruct (m_targetMap be !! poolId) as [addr|] eqn:Hp; [| done].
      destruct (targets be !! addr) as [t|] eqn:Ht; run_m; [| done].
      intros [= <- <-]. simpl. split_and!; [done | done | done |].
      intros addr'. destruct (decide (addr = addr')) as [<- | Hne].
      * right. exists poolId, bufferId, t.
        split_and!; [done | done | done | apply lookup_insert_eq].
      * left. by apply lookup_insert_ne.
  - intros [= <- <-]. split_and!; [done | done | done | by left].
Qed.

Lemma initialize_reply (Message_size self backend w h p : Z) (closed : bool)
    (be : RendererBackend) (t : EGLTarget) :
  targets be !! self = Some t →
  let t' := mkEGLTarget (target t) (Some backend)
              (mkRenderer (initialized (renderer t)) w h (framebuffer (renderer t)))
              (mkBuffers (current (buffers t)) p (pool (buffers t))) in
  initialize Message_size self backend w h
      (mkReceived Message_size (PoolConstructionReply p) closed) be =
    (Returns (registerEGLTarget p self
                (mkRendererBackend (m_targetMap be) (<[self := t']> (targets be)))),
     [EvSendMessage (BackendIpc backend) PoolConstruction;
      EvSendMessage TargetIpc (RegisterPool p)]).
Proof.
  intros Ht t'. unfold initialize, sendAndReceiveMessage, target_at.
  rewrite Ht. run_m. rewrite !Z.eqb_refl. simpl.
  rewrite insert_insert_eq. reflexivity.
Qed.

(** X10. [initialize] answered by [PoolConstructionReply] with a pool id the
    registry does not know makes the target reachable under that id: the
    target stores the id, the backend and the size, is entered in the
    registry and sends [RegisterPool]; a [FrameComplete] for the id is then
    dispatched on this target and a [ReleaseBuffer] is run on it. *)
Theorem initialize_registers_fresh_pool
    (Message_size self backend w h p : Z) (closed : bool)
    (be : RendererBackend) (t : EGLTarget) :
  targets be !! self = Some t →
  m_targetMap be !! p = None →
  let t' := mkEGLTarget (target t) (Some backend)
              (mkRenderer (initialized (renderer t)) w h (framebuffer (renderer t)))
              (mkBuffers (current (buffers t)) p (pool (buffers t))) in
  let be' := mkRendererBackend (<[p := self]> (m_targetMap be))
               (<[self := t']> (targets be)) in
  initialize Message_size self backend w h
      (mkReceived Message_size (PoolConstructionReply p) closed) be =
    (Returns be',
     [EvSendMessage (BackendIpc backend) PoolConstruction;
      EvSendMessage TargetIpc (RegisterPool p)]) ∧
  RendererBackend_handleMessage Message_size (FrameComplete p) Message_size be' =
    (Returns be', [EvDispatchFrameComplete (target t)]) ∧
  ∀ bufferId,
    RendererBackend_handleMessage Message_size (ReleaseBuffer p bufferId)
        Message_size be' =
      (Returns (mkRendererBackend (m_targetMap be')
                  (<[self := releaseBuffer p bufferId t']> (targets be'))),
       []).
Proof.
  intros Ht Hp t' be'.
  assert (Hmap : m_targetMap be' !! p = Some self) by apply lookup_insert_eq.
  assert (Hself : targets be' !! self = Some t') by apply lookup_insert_eq.
  split; [| split].
  - rewrite (initialize_reply _ _ _ _ _ _ _ _ _ Ht).
    unfold registerEGLTarget. simpl. by rewrite Hp.
  - by destruct (handleMessage_registered Message_size be' p 0 self t' Hmap Hself).
  - intros bufferId.
    by destruct (handleMessage_registered Message_size be' p bufferId self t' Hmap Hself).
Qed.

(** X11. A target initialised with a pool id that is registered to another
    target already is shadowed: it stores the id and sends [RegisterPool]
    like any other, but the registry keeps the first target, so
    [FrameComplete] and [ReleaseBuffer] for the id go to the first target
    and leave the new one untouched. *)
Theorem initialize_with_taken_pool_is_shadowed
    (Message_size self other backend w h p : Z) (closed : bool)
    (be : RendererBackend) (t first : EGLTarget) :
  targets be !! self = Some t →
  m_targetMap be !! p = Some other →
  targets be !! other = Some first →
  other ≠ self →
  ∃ be' t',
    initialize Message_size self backend w h
        (mkReceived Message_size (PoolConstructionReply p) closed) be =
      (Returns be',
       [EvSendMessage (BackendIpc backend) PoolConstruction;
        EvSendMessage TargetIpc (RegisterPool p)]) ∧
    targets be' !! self = Some t' ∧ poolID (buffers t') = p ∧
    m_targetMap be' = m_targetMap be ∧
    RendererBackend_handleMessage Message_size (FrameComplete p) Message_size be' =
      (Returns be', [EvDispatchFrameComplete (target first)]) ∧
    ∀ bufferId be'',
      result (RendererBackend_handleMessage Message_size (ReleaseBuffer p bufferId)
                Message_size be') = Returns be'' →
      targets be'' !! self = Some t' ∧
      targets be'' !! other = Some (releaseBuffer p bufferId first).
Proof.
  intros Ht Hp Hfirst Hne.
  eexists _, _. rewrite (initialize_reply _ _ _ _ _ _ _ _ _ Ht).
  unfold registerEGLTarget. simpl. rewrite Hp.
  split; [reflexivity |]. simpl.
  split; [apply lookup_insert_eq |]. split; [done |]. split; [done |].
  set (be' := mkRendererBackend _ _).
  assert (Hother : targets be' !! other = Some first)
    by (simpl; by rewrite lookup_insert_ne).
  destruct (handleMessage_registered Message_size be' p 0 other first Hp Hother)
    as [Hfc _].
  split; [exact Hfc |].
  intros bufferId be''.
  destruct (handleMessage_registered Message_size be' p bufferId other first Hp Hother)
    as [_ ->].
  simpl. intros [= <-]. simpl.
  split; [| apply lookup_insert_eq].
  rewrite lookup_insert_ne by done. apply lookup_insert_eq.
Qed.

(** X12. [initialize] that gets no usable reply (a receive of another length
    than a frame, or a frame that is not [PoolConstructionReply]) still
    binds the target to the backend and stores the size, but leaves its
    pool id and the registry as they were and sends no [RegisterPool]; no
    error is raised. *)
Theorem initialize_without_reply
    (Message_size self backend w h : Z) (reply : Received)
    (be : RendererBackend) (t : EGLTarget) :
  targets be !! self = Some t →
  recv_len reply ≠ Message_size ∨ (∀ p, recv_buffer reply ≠ PoolConstructionReply p) →
  initialize Message_size self backend w h reply be =
    (Returns
       (mkRendererBackend (m_targetMap be)
          (<[self := mkEGLTarget (target t) (Some backend)
                       (mkRenderer (initialized (renderer t)) w h
                          (framebuffer (renderer t)))
                       (buffers t)]> (targets be))),
     [EvSendMessage (BackendIpc backend) PoolConstruction]).
Proof.
  intros Ht Hbad. unfold initialize, sendAndReceiveMessage, target_at.
  rewrite Ht. run_m.
  destruct (Z.eqb_spec (recv_len reply) Message_size) as [Hlen | Hlen]; [| done].
  rewrite Z.eqb_refl. simpl.
  destruct Hbad as [? | Hnot]; [done |].
  destruct (recv_buffer reply) as [| p | | | | | | | |]; try done.
  by destruct (Hnot p).
Qed.

(** X13. Destroying a target announces [UnregisterPool] to the host but the
    backend's registry is not told: it still maps the pool id to the
    destroyed object.  So the unknown-pool [g_error] of [handleMessage] does
    not fire for a [FrameComplete] or [ReleaseBuffer] with that id that
    arrives afterwards, and [registerEGLTarget] for the same id leaves the
    stale entry where it is. *)
Theorem destroyed_target_stays_registered
    (Message_size self p : Z) (be : RendererBackend) (t : EGLTarget) :
  targets be !! self = Some t →
  m_targetMap be !! p = Some self →
  ∃ be',
    EGLTarget_delete self be =
      (Returns be', [EvSendMessage TargetIpc (UnregisterPool (poolID (buffers t)))]) ∧
    m_targetMap be' = m_targetMap be ∧
    m_targetMap be' !! p = Some self ∧
    targets be' !! self = None ∧
    result (RendererBackend_handleMessage Message_size (FrameComplete p) Message_size be')
      ≠ NoReturn (GError p) ∧
    (∀ bufferId,
       result (RendererBackend_handleMessage Message_size (ReleaseBuffer p bufferId)
                 Message_size be') ≠ NoReturn (GError p)) ∧
    ∀ other, registerEGLTarget p other be' = be'.
Proof.
  intros Ht Hp. unfold EGLTarget_delete, target_at. rewrite Ht. run_m.
  eexists. split; [reflexivity |]. simpl.
  split; [done |]. split; [done |]. split; [apply lookup_delete_eq |].
  unfold RendererBackend_handleMessage, registerEGLTarget, target_at.
  rewrite Z.eqb_refl. simpl. rewrite Hp, lookup_delete_eq.
  split; [done |]. split; done.
Qed.

(** ** The channel *)

(** X14. A socket callback asks to be detached (returns [FALSE]) exactly
    when [G_IO_IN] is set and the receive failed; in every other return it
    stays attached.  Without [G_IO_IN] it does not touch its channel at all,
    and it never changes the socket member. *)
Theorem socketCallback_detaches_only_on_failed_read
    (Message_size : Z) (H : Type) (HH : Handler H)
    (condition : Z) (rx : Received) (host : Host H) (client : Client H) :
  (Z.land condition G_IO_IN = 0 →
   Host_socketCallback Message_size condition rx host = (Returns (true, host), []) ∧
   Client_socketCallback Message_size condition rx client =
     (Returns (true, client), [])) ∧
  (∀ keep host',
     result (Host_socketCallback Message_size condition rx host) =
       Returns (keep, host') →
     host_socket host' = host_socket host ∧
     (keep = false ↔ Z.land condition G_IO_IN ≠ 0 ∧ recv_len rx = -1)) ∧
  (∀ keep client',
     result (Client_socketCallback Message_size condition rx client) =
       Returns (keep, client') →
     m_socket client' = m_socket client ∧
     (keep = false ↔ Z.land condition G_IO_IN ≠ 0 ∧ recv_len rx = -1)).
Proof.
  unfold Host_socketCallback, Client_socketCallback.
  destruct (Z.eqb_spec (Z.land condition G_IO_IN) 0) as [Hc | Hc].
  { split; [done |].
    split; intros keep x [= <- <-]; (split; [done |]); (split; [done |]);
      by intros [? ?]. }
  split; [done |].
  destruct (Z.eqb_spec (recv_len rx) (-1)) as [Hlen | Hlen].
  { split.
    - intros keep x [= <- <-]. done.
    - intros keep x. run_m. destruct (negb (recv_connection_closed rx)); simpl;
        intros [= <- <-]; done. }
  assert (Hstay : ∀ A (a a' : A) (f : A → option Z),
            f a' = f a →
            f a' = f a ∧ (true = false ↔ Z.land condition G_IO_IN ≠ 0 ∧ recv_len rx = -1)).
  { intros A a a' f Hf. split; [done |]. split; [done | by intros [? ?]]. }
  split.
  - intros keep host'. run_m.
    destruct (recv_len rx =? Message_size); simpl.
    + destruct (host_handler host) as [h|]; simpl; [| done].
      destruct (handleMessage (recv_buffer rx) Message_size h) as [[h'|why] es];
        simpl; [| done].
      intros [= <- <-]. by apply (Hstay _ host _ host_socket).
    + intros [= <- <-]. by apply (Hstay _ host _ host_socket).
  - intros keep client'. run_m.
    destruct (recv_len rx =? Message_size); simpl.
    + destruct (m_handler client) as [h|]; simpl.
      * destruct (handleMessage (recv_buffer rx) Message_size h) as [[h'|why] es];
          simpl; [| done].
        intros [= <- <-]. by apply (Hstay _ client _ m_socket).
      * intros [= <- <-]. by apply (Hstay _ client _ m_socket).
    + intros [= <- <-]. by apply (Hstay _ client _ m_socket).
Qed.

Lemma recvmsg_retry_interrupted sockfd (cs : list (option Z)) outcomes :
  recvmsg_retry sockfd (((λ c, (-1, EINTR, c)) <$> cs) ++ outcomes) =
    let '(o, calls) := recvmsg_retry sockfd outcomes in
    (o, replicate (length cs) (SysRecvmsg sockfd) ++ calls).
Proof.
  induction cs as [|c cs IH].
  - simpl. by destruct (recvmsg_retry sockfd outcomes).
  - rewrite fmap_cons, <- app_comm_cons.
    change (recvmsg_retry sockfd ((-1, EINTR, c) :: ?l))
      with (let '(o, calls) := recvmsg_retry sockfd l in (o, SysRecvmsg sockfd :: calls)).
    rewrite IH. by destruct (recvmsg_retry sockfd outcomes).
Qed.

(** X15. [receiveFileDescriptor] calls [recvmsg] again for as long as it
    fails with [EINTR].  At the first other outcome it returns minus the
    error code if [recvmsg] failed and the descriptor of the first control
    header otherwise; when the message carries no control header (as after
    an orderly shutdown) it reads through the null header instead. *)
Theorem receiveFileDescriptor_retries_on_EINTR
    (h : HostChannel) (cs : list (option Z)) :
  let interrupted := (λ c, (-1, EINTR, c)) <$> cs in
  receiveFileDescriptor h interrupted =
    (NoReturn RetryForever, replicate (length cs) (SysRecvmsg (Host_socketFd h))) ∧
  ∀ r e c rest,
    ¬ (r = -1 ∧ e = EINTR) →
    receiveFileDescriptor h (interrupted ++ (r, e, c) :: rest) =
      (if r =? -1 then Returns (- e)
       else match c with
            | Some fd => Returns fd
            | None => NoReturn InvalidDeref
            end,
       replicate (S (length cs)) (SysRecvmsg (Host_socketFd h))).
Proof.
  intros interrupted. unfold receiveFileDescriptor. split.
  - rewrite <- (app_nil_r interrupted). unfold interrupted.
    rewrite recvmsg_retry_interrupted. simpl. by rewrite app_nil_r.
  - intros r e c rest Hne. unfold interrupted.
    rewrite replicate_S_end, recvmsg_retry_interrupted.
    cbn [recvmsg_retry].
    assert ((r =? -1) && (e =? EINTR) = false) as ->.
    { apply andb_false_iff.
      destruct (Z.eqb_spec r (-1)), (Z.eqb_spec e EINTR); tauto. }
    destruct (r =? -1); [done |]. by destruct c.
Qed.

Lemma closes_app fd es1 es2 : closes fd (es1 ++ es2) = (closes fd es1 + closes fd es2)%nat.
Proof. unfold closes. by rewrite filter_app, length_app. Qed.

Lemma closes_deinitialize fd h :
  closes fd (snd (Host_deinitialize h)) =
    if (hc_clientFd h =? -1) then 0%nat
    else if hc_clientFd h =? fd then 1%nat else 0%nat.
Proof.
  unfold Host_deinitialize, closes. simpl. rewrite !filter_app, !length_app.
  assert (length (filter (λ c, is_close fd c = true)
                    (if hc_source h then [SysSourceDestroy] else [])) = 0%nat) as ->
    by (by destruct (hc_source h)).
  assert (length (filter (λ c, is_close fd c = true)
                    (match hc_socket h with
                     | Some s => [SysSocketUnref s]
                     | None => []
                     end)) = 0%nat) as ->
    by (by destruct (hc_socket h)).
  destruct (hc_clientFd h =? -1); [done |].
  rewrite filter_cons. simpl.
  destruct (hc_clientFd h =? fd); simpl; [| done].
  destruct (decide (true = true)); done.
Qed.

Lemma closes_cons fd c es :
  closes fd (c :: es) = ((if is_close fd c then 1 else 0) + closes fd es)%nat.
Proof.
  unfold closes. rewrite filter_cons.
  destruct (decide (is_close fd c = true)) as [-> | Hn]; [done |].
  by destruct (is_close fd c).
Qed.

Lemma closes_release_then_deinitialize fd calls : ∀ h,
  closes fd (snd (release_then_deinitialize calls h)) =
    if hc_clientFd h =? -1 then 0%nat
    else if hc_clientFd h =? fd then 1%nat else 0%nat.
Proof.
  induction calls as [|[flag dup_ret] rest IH]; intros h.
  - apply closes_deinitialize.
  - simpl. unfold releaseClientFD.
    destruct (flag && negb (hc_clientFd h =? -1)) eqn:Hclose.
    + specialize (IH (mkHostChannel (hc_socket h) (hc_source h) (-1) (hc_handler h))).
      destruct (release_then_deinitialize rest _) as [h2 es2]. simpl in *.
      rewrite !closes_cons, IH. simpl.
      apply andb_true_iff in Hclose as [_ Hne]. apply negb_true_iff in Hne.
      rewrite Hne. destruct (hc_clientFd h =? fd); lia.
    + specialize (IH h).
      destruct (release_then_deinitialize rest h) as [h2 es2]. simpl in *.
      by rewrite closes_cons, IH.
Qed.

(** X16. However often and with whatever flags [releaseClientFD] is called
    before [deinitialize], the host's copy of the client descriptor is
    closed exactly once, and [close] is never called on [-1].
    [deinitialize] itself resets only the handler, so a second
    [deinitialize] repeats every call of the first. *)
Theorem client_descriptor_closed_once (calls : list (bool * Z)) (h : HostChannel) :
  (hc_clientFd h ≠ -1 →
   closes (hc_clientFd h) (snd (release_then_deinitialize calls h)) = 1%nat) ∧
  closes (-1) (snd (release_then_deinitialize calls h)) = 0%nat ∧
  snd (Host_deinitialize (fst (Host_deinitialize h))) = snd (Host_deinitialize h).
Proof.
  rewrite !closes_release_then_deinitialize.
  split; [| split; [| done]].
  - intros Hfd. by rewrite (proj2 (Z.eqb_neq _ _) Hfd), Z.eqb_refl.
  - by destruct (hc_clientFd h =? -1).
Qed.

(** X17. [Host::initialize] either sets the channel up whole or not at
    all.  If [socketpair] fails nothing is opened and no member but the
    handler changes.  If the socket cannot be made from the first
    descriptor both descriptors are closed again, once each, and
    [socketFd] is [-1].  Otherwise [socketFd] is the first descriptor,
    the second is kept for the client, and nothing is closed. *)
Theorem Host_initialize_all_or_nothing
    (sp_ret fd0 fd1 : Z) (socket_ok : bool) (h : HostChannel) :
  let h' := fst (Host_initialize sp_ret fd0 fd1 socket_ok h) in
  let es := snd (Host_initialize sp_ret fd0 fd1 socket_ok h) in
  hc_handler h' = true ∧
  (sp_ret = -1 →
   hc_socket h' = hc_socket h ∧ hc_source h' = hc_source h ∧
   hc_clientFd h' = hc_clientFd h ∧ ∀ fd, closes fd es = 0%nat) ∧
  (sp_ret ≠ -1 → socket_ok = false →
   Host_socketFd h' = -1 ∧ hc_clientFd h' = hc_clientFd h ∧
   (fd0 ≠ fd1 → closes fd0 es = 1%nat ∧ closes fd1 es = 1%nat)) ∧
  (sp_ret ≠ -1 → socket_ok = true →
   Host_socketFd h' = fd0 ∧ hc_clientFd h' = fd1 ∧ hc_source h' = true ∧
   ∀ fd, closes fd es = 0%nat).
Proof.
  unfold Host_initialize.
  destruct (Z.eqb_spec sp_ret (-1)) as [Hsp | Hsp]; simpl.
  - split_and!; [done | done | done | done].
  - destruct socket_ok; simpl; split_and!; try done.
    intros _ _. split_and!; [done | done |].
    intros Hne. rewrite !closes_cons. simpl. rewrite !Z.eqb_refl.
    rewrite (proj2 (Z.eqb_neq fd1 fd0)) by congruence.
    rewrite (proj2 (Z.eqb_neq fd0 fd1)) by congruence. done.
Qed.

(** ** What holds in every state a target can reach *)

Lemma unlockFirst_keeps_unlocked id pool i b :
  pool !! i = Some b → locked b = false →
  ∃ b', unlockFirst id pool !! i = Some b' ∧ locked b' = false.
Proof.
  intros Hi Hl. revert i Hi.
  induction pool as [|b0 rest IH]; intros i Hi; [done |].
  simpl. destruct (bufferID b0 =? id); destruct i as [|i]; simpl in *.
  - eexists. split; [reflexivity | done].
  - eauto.
  - injection Hi as ->. eauto.
  - by apply IH.
Qed.

Lemma allocateCurrent_no_abort e c b t :
  result (allocateCurrent e c b t) ≠ NoReturn StdAbort.
Proof.
  unfold allocateCurrent, attachCurrent, backend_of. simpl.
  destruct (negb (env_alloc_ret e =? 0) || (env_alloc_object e =? 0)); [done |].
  destruct (m_backend t); run_m; [| done].
  induction (env_sendHandle e) as [|x rest IH]; simpl; [done |].
  destruct ((x =? 0) || negb (x =? - EAGAIN)); simpl; [done |].
  destruct (sendHandleToUnixSocket _ _ rest) as [[[]|why] es]; simpl in *; done.
Qed.

Lemma selectCurrent_unlocked bs :
  current_unlocked bs → current_unlocked (selectCurrent bs).
Proof.
  intros Hinv. unfold selectCurrent.
  destruct (firstUnlocked 0 (pool bs)) as [i|] eqn:Hfirst; [| done].
  apply firstUnlocked_Some in Hfirst as (j & b & -> & Hj & Hl & _).
  unfold current_unlocked. simpl. eauto.
Qed.

Lemma step_current_unlocked o t t' :
  current_unlocked (buffers t) →
  result (step o t) = Returns t' →
  current_unlocked (buffers t').
Proof.
  intros Hinv. destruct o as [e | | poolId bufferId | w h |]; simpl.
  - apply selectCurrent_unlocked in Hinv.
    destruct (frameWillRender_cases e t)
      as [[_ ->] | [(c & _ & _ & ->) | (c & bc & r & Hc & Hbc & _ & _ & ->)]];
      [done | done |].
    set (t1 := with_buffers (selectCurrent (buffers t)) (with_renderer r t)).
    unfold current_unlocked in Hinv. rewrite Hc, selectCurrent_pool in Hinv.
    destruct Hinv as (b0 & Hb0 & Hl0). assert (b0 = bc) as -> by congruence.
    destruct (object bc =? 0).
    + pose proof (allocateCurrent_returns e c bc t1 t') as Hret.
      destruct (allocateCurrent e c bc t1) as [o es]. simpl in *. intros ->.
      destruct (Hret eq_refl) as ([_ _ _ Hcur _] & b' & Hpool & _ & Hlk & _).
      unfold current_unlocked. rewrite Hcur. simpl. rewrite Hc, Hpool.
      exists b'. split; [| congruence].
      apply list_lookup_insert_eq. rewrite selectCurrent_pool.
      by eapply lookup_lt_Some.
    + rewrite attachCurrent_spec. simpl. intros [= <-].
      unfold current_unlocked. simpl. rewrite Hc, selectCurrent_pool. eauto.
  - unfold frameRendered, slot, backend_of.
    destruct (current (buffers t)) as [c|]; [| done].
    destruct (pool (buffers t) !! c) as [b|]; [| done]. run_m.
    destruct (object b =? 0); simpl; [by intros [= <-] |].
    destruct (m_backend t); simpl; [by intros [= <-] | done].
  - intros [= <-]. unfold releaseBuffer.
    destruct (negb (poolID (buffers t) =? poolId)); [done |].
    unfold current_unlocked in *. simpl.
    destruct (current (buffers t)) as [c|]; [| done].
    destruct Hinv as (b & Hb & Hl). by apply (unlockFirst_keeps_unlocked _ _ _ b).
  - unfold resize.
    destruct ((width (renderer t) =? w) && (height (renderer t) =? h));
      [by intros [= <-] |].
    simpl. rewrite destroyBufferPool_trace. run_m. intros [= <-].
    unfold current_unlocked in *. simpl.
    destruct (current (buffers t)) as [c|]; [| done].
    destruct Hinv as (b & Hb & _). exists (freed b).
    by rewrite list_lookup_fmap, Hb.
  - rewrite deinitialize_eq. simpl. intros [= <-].
    unfold current_unlocked in *. simpl.
    destruct (current (buffers t)) as [c|]; [| done].
    destruct Hinv as (b & Hb & _). exists (freed b).
    by rewrite list_lookup_fmap, Hb.
Qed.

Lemma run_current_unlocked ops : ∀ t t',
  current_unlocked (buffers t) →
  result (run ops t) = Returns t' →
  current_unlocked (buffers t').
Proof.
  induction ops as [|o rest IH]; intros t t' Hinv; simpl.
  - by intros [= <-].
  - pose proof (step_current_unlocked o t) as Hstep.
    destruct (step o t) as [[t1|why] es1]; run_m; [| done].
    specialize (Hstep t1 Hinv eq_refl).
    pose proof (IH t1 t' Hstep) as Hrest.
    destruct (run rest t1) as [o2 es2]; simpl in *. done.
Qed.

(** X18. In every state a target reaches from its construction, whatever
    is called on it, [buffers.current] is null or points at an unlocked slot
    of the pool.  So [frameWillRender] ends in [std::abort()] exactly when
    every slot is locked. *)
Theorem reachable_abort_iff_all_locked
    (tg : Z) (ops : list op) (t : EGLTarget) (e : RenderEnv) :
  result (run ops (EGLTarget_new tg)) = Returns t →
  current_unlocked (buffers t) ∧
  (result (frameWillRender e t) = NoReturn StdAbort ↔
   Forall (λ b, locked b = true) (pool (buffers t))).
Proof.
  intros Hrun.
  assert (Hinv : current_unlocked (buffers t))
    by (by apply (run_current_unlocked ops (EGLTarget_new tg))).
  split; [done |]. split.
  - intros Habort.
    destruct (frameWillRender_cases e t)
      as [[Hnone _] | [(c & _ & _ & Heq) | (c & bc & r & _ & _ & _ & _ & Heq)]].
    + unfold selectCurrent in Hnone.
      destruct (firstUnlocked 0 (pool (buffers t))) eqn:Hfirst; [done |].
      by apply firstUnlocked_None in Hfirst.
    + by rewrite Heq in Habort.
    + rewrite Heq in Habort. exfalso.
      set (t1 := with_buffers _ _) in Habort.
      destruct (object bc =? 0).
      * pose proof (allocateCurrent_no_abort e c bc t1) as Hno.
        by destruct (allocateCurrent e c bc t1).
      * by rewrite attachCurrent_spec in Habort.
  - intros Hall. apply frameWillRender_all_locked; [| done].
    unfold current_unlocked in Hinv.
    destruct (current (buffers t)) as [c|]; [| done].
    destruct Hinv as (b & Hb & Hl).
    rewrite Forall_lookup in Hall. specialize (Hall _ _ Hb). simpl in Hall. congruence.
Qed.

(** ** Edges of a frame *)

(** X19. A [resize] to another size in the middle of a frame leaves
    [buffers.current] on its slot, now freed.  The [frameRendered] that
    follows sends no [BufferCommit], as the slot has no handle, and still
    locks the slot and clears [buffers.current]. *)
Theorem resize_during_frame_drops_commit
    (w h : Z) (t : EGLTarget) (c : nat) (b : Buffer) :
  ¬ (width (renderer t) = w ∧ height (renderer t) = h) →
  current (buffers t) = Some c →
  pool (buffers t) !! c = Some b →
  ∃ t1 es1 t2,
    resize w h t = (Returns t1, es1) ∧
    current (buffers t1) = Some c ∧
    frameRendered t1 = (Returns t2, [EvFlush]) ∧
    pool (buffers t2) !! c = Some (mkBuffer (bufferID b) true 0 0 0 0) ∧
    current (buffers t2) = None.
Proof.
  intros Hne Hc Hb.
  assert ((width (renderer t) =? w) && (height (renderer t) =? h) = false) as Hdims.
  { apply andb_false_iff.
    destruct (Z.eqb_spec (width (renderer t)) w), (Z.eqb_spec (height (renderer t)) h);
      tauto. }
  unfold resize. rewrite Hdims. simpl. rewrite destroyBufferPool_trace. run_m.
  eexists _, _, _. split; [reflexivity |]. simpl. split; [done |].
  unfold frameRendered, slot. simpl. rewrite Hc, list_lookup_fmap, Hb. simpl.
  split; [reflexivity |]. simpl. split; [| done].
  apply list_lookup_insert_eq. rewrite length_fmap. by eapply lookup_lt_Some.
Qed.

Lemma sendHandleToUnixSocket_again obj ch n rets :
  sendHandleToUnixSocket obj ch (replicate n (- EAGAIN) ++ rets) =
    let '(o, es) := sendHandleToUnixSocket obj ch rets in
    (o, replicate n (EvSendHandleToUnixSocket obj ch (- EAGAIN)) ++ es).
Proof.
  induction n as [|n IH]; simpl.
  - by destruct (sendHandleToUnixSocket obj ch rets).
  - run_m. rewrite IH. by destruct (sendHandleToUnixSocket obj ch rets).
Qed.

(** X20. The hand-over of a new handle is repeated for as long as it is
    answered [-EAGAIN] and ends at the first other answer, success or not:
    an error other than [EAGAIN] is not retried and not reported.  While
    every answer so far is [-EAGAIN] the loop has not ended. *)
Theorem sendHandle_retries_on_EAGAIN (obj : Z) (ch : channel) (n : nat) :
  sendHandleToUnixSocket obj ch (replicate n (- EAGAIN)) =
    (NoReturn RetryForever, replicate n (EvSendHandleToUnixSocket obj ch (- EAGAIN))) ∧
  ∀ r rest,
    r ≠ - EAGAIN →
    sendHandleToUnixSocket obj ch (replicate n (- EAGAIN) ++ r :: rest) =
      (Returns tt,
       replicate n (EvSendHandleToUnixSocket obj ch (- EAGAIN)) ++
       [EvSendHandleToUnixSocket obj ch r]).
Proof.
  split.
  - rewrite <- (app_nil_r (replicate n (- EAGAIN))), sendHandleToUnixSocket_again.
    simpl. run_m. by rewrite app_nil_r.
  - intros r rest Hr. rewrite sendHandleToUnixSocket_again.
    cbn [sendHandleToUnixSocket]. run_m.
    replace (r =? - EAGAIN) with false by (symmetry; by apply Z.eqb_neq).
    by rewrite orb_true_r.
Qed.

(** ** Instances of the further properties *)

Lemma destroyBufferPool_releases_each_once_witness :
  count (releases 100) (trace (destroyBufferPool (pool (buffers allocated7)))) = 1%nat ∧
  count (destroys_image 200) (trace (destroyBufferPool (pool (buffers allocated7))))
    = 1%nat.
Proof.
  destruct (destroyBufferPool_releases_each_once (pool (buffers allocated7)))
    as (Hrel & Himg & _).
  split.
  - rewrite (Hrel 100); [reflexivity | discriminate].
  - rewrite (Himg 200); [reflexivity | discriminate].
Defined.

Lemma framebuffer_generated_at_most_once_witness :
  count generates_framebuffer (trace (run one_frame_cycle allocated7)) = 0%nat ∧
  ∃ t', result (run one_frame_cycle allocated7) = Returns t' ∧
        initialized (renderer t') = true.
Proof.
  destruct (framebuffer_generated_at_most_once one_frame_cycle allocated7)
    as [_ Hini].
  destruct (Hini eq_refl) as [Hnone Hkept].
  split; [exact Hnone |].
  assert (∃ t', result (run one_frame_cycle allocated7) = Returns t') as [t' Ht'].
  { eexists. vm_compute. reflexivity. }
  exists t'. split; [exact Ht' | exact (Hkept t' Ht')].
Defined.

Lemma framebuffer_not_recreated_after_deinitialize_witness :
  ∃ t', result (run [OpDeinitialize; OpFrameWillRender env_ok] allocated7) = Returns t' ∧
        framebuffer (renderer t') = 0.
Proof.
  assert (∃ t', result (run [OpDeinitialize; OpFrameWillRender env_ok] allocated7)
                = Returns t') as [t' Ht'].
  { eexists. vm_compute. reflexivity. }
  exists t'. split; [exact Ht' |].
  destruct (framebuffer_not_recreated_after_deinitialize
              [OpFrameWillRender env_ok] allocated7 t' eq_refl Ht') as [Hfb _].
  exact Hfb.
Defined.

Lemma commit_then_release_restores_pool_witness :
  ∃ t1 es,
    frameRendered rendering7 = (Returns t1, es) ∧
    releaseBuffer 7 0 t1 = allocated7.
Proof.
  destruct (commit_then_release_restores_pool rendering7 0
              (mkBuffer 0 false 100 200 11 12))
    as (t1 & es & Hrun & _ & Hback).
  - exact allocated7_numbered.
  - reflexivity.
  - reflexivity.
  - reflexivity.
  - right. exists 1000. reflexivity.
  - exists t1, es. split; [exact Hrun | exact Hback].
Defined.

Lemma frameRendered_twice_dereferences_null_witness :
  frameRendered session7 = (NoReturn InvalidDeref, [EvFlush]) ∧
  ∃ t', result (frameRendered rendering7) = Returns t' ∧
        frameRendered t' = (NoReturn InvalidDeref, [EvFlush]).
Proof.
  split.
  - destruct (frameRendered_twice_dereferences_null session7) as [Hnone _].
    apply Hnone. reflexivity.
  - destruct (frameRendered_twice_dereferences_null rendering7) as [_ Hagain].
    eexists. split; [reflexivity |].
    destruct (Hagain _ eq_refl) as [_ Hnull]. exact Hnull.
Defined.

Lemma resize_then_acquire_allocates_anew_witness :
  ∃ t1 es1 t2 es2,
    resize 800 600 allocated7 = (Returns t1, es1) ∧
    frameWillRender env_ok t1 = (Returns t2, es2) ∧
    EvHardwareBufferAllocate 800 600 0 0 100 ∈ es2 ∧
    EvSendMessage (BackendIpc 1000) (BufferAllocation 7 0) ∈ es2.
Proof.
  destruct (resize_then_acquire_allocates_anew 800 600 env_ok allocated7
              (mkBuffer 0 false 100 200 11 12) 1000)
    as (t1 & es1 & t2 & es2 & Hresize & Hfwr & _ & _ & Halloc & Hmsg).
  - intros [Hw _]. discriminate Hw.
  - reflexivity.
  - reflexivity.
  - reflexivity.
  - discriminate.
  - apply Exists_cons_tl, Exists_cons_hd. discriminate.
  - exists t1, es1, t2, es2. split; [exact Hresize |]. split; [exact Hfwr |].
    split; [exact Halloc | exact Hmsg].
Defined.

Lemma unreleased_frames_saturate_witness :
  result (run (frames [env_ok; env_ok; env_ok; env_ok] ++ [OpFrameWillRender env_ok])
            session7) = NoReturn StdAbort.
Proof.
  destruct (unreleased_frames_saturate [env_ok; env_ok; env_ok; env_ok] env_ok session7)
    as (t' & es & _ & _ & Habort).
  - exists 1000. reflexivity.
  - reflexivity.
  - repeat (apply Forall_cons; split;
              [apply Exists_cons_tl, Exists_cons_hd; discriminate |]).
    apply Forall_nil_2.
  - reflexivity.
  - exact Habort.
Defined.

Lemma handleMessage_touches_only_addressed_target_witness :
  m_targetMap
    (mkRendererBackend (m_targetMap backend7)
       (<[2000 := releaseBuffer 7 2 saturated7]> (targets backend7))) =
    m_targetMap backend7 ∧
  ∀ addr,
    <[2000 := releaseBuffer 7 2 saturated7]> (targets backend7) !! addr =
      targets backend7 !! addr ∨
    ∃ poolId bufferId t,
      ReleaseBuffer 7 2 = ReleaseBuffer poolId bufferId ∧
      m_targetMap backend7 !! poolId = Some addr ∧
      targets backend7 !! addr = Some t ∧
      <[2000 := releaseBuffer 7 2 saturated7]> (targets backend7) !! addr =
        Some (releaseBuffer poolId bufferId t).
Proof.
  destruct (handleMessage_touches_only_addressed_target 32 (ReleaseBuffer 7 2) 32
              backend7
              (mkRendererBackend (m_targetMap backend7)
                 (<[2000 := releaseBuffer 7 2 saturated7]> (targets backend7)))
              [] eq_refl) as (Hmap & _ & _ & Htouch).
  split; [exact Hmap | exact Htouch].
Defined.

Lemma initialize_registers_fresh_pool_witness :
  initialize 32 2000 1000 640 480 (mkReceived 32 (PoolConstructionReply 7) false)
      backend_new =
    (Returns (mkRendererBackend (<[7 := 2000]> ∅) (<[2000 := session7]> (targets backend_new))),
     [EvSendMessage (BackendIpc 1000) PoolConstruction;
      EvSendMessage TargetIpc (RegisterPool 7)]) ∧
  RendererBackend_handleMessage 32 (FrameComplete 7) 32
      (mkRendererBackend (<[7 := 2000]> ∅) (<[2000 := session7]> (targets backend_new))) =
    (Returns (mkRendererBackend (<[7 := 2000]> ∅)
                (<[2000 := session7]> (targets backend_new))),
     [EvDispatchFrameComplete 1]).
Proof.
  destruct (initialize_registers_fresh_pool 32 2000 1000 640 480 7 false backend_new
              (EGLTarget_new 1) eq_refl eq_refl) as (Hinit & Hfc & _).
  split; [exact Hinit | exact Hfc].
Defined.

Lemma initialize_with_taken_pool_is_shadowed_witness :
  ∃ be',
    result (initialize 32 3000 1000 640 480
              (mkReceived 32 (PoolConstructionReply 7) false) backend_two) =
      Returns be' ∧
    RendererBackend_handleMessage 32 (FrameComplete 7) 32 be' =
      (Returns be', [EvDispatchFrameComplete 1]).
Proof.
  destruct (initialize_with_taken_pool_is_shadowed 32 3000 2000 1000 640 480 7 false
              backend_two (EGLTarget_new 2) saturated7)
    as (be' & t' & Hinit & _ & _ & _ & Hfc & _).
  - reflexivity.
  - reflexivity.
  - reflexivity.
  - discriminate.
  - exists be'. split; [by rewrite Hinit | exact Hfc].
Defined.

Lemma initialize_without_reply_witness :
  initialize 32 2000 1000 640 480 (mkReceived 5 PoolConstruction false) backend_new =
    (Returns
       (mkRendererBackend ∅
          (<[2000 := mkEGLTarget 1 (Some 1000) (mkRenderer false 640 480 0)
                       (buffers (EGLTarget_new 1))]> (targets backend_new))),
     [EvSendMessage (BackendIpc 1000) PoolConstruction]).
Proof.
  apply (initialize_without_reply 32 2000 1000 640 480
           (mkReceived 5 PoolConstruction false) backend_new (EGLTarget_new 1)).
  - reflexivity.
  - left. discriminate.
Defined.

Lemma destroyed_target_stays_registered_witness :
  ∃ be',
    EGLTarget_delete 2000 backend7 =
      (Returns be', [EvSendMessage TargetIpc (UnregisterPool 7)]) ∧
    m_targetMap be' !! 7 = Some 2000 ∧
    targets be' !! 2000 = None ∧
    registerEGLTarget 7 3000 be' = be'.
Proof.
  destruct (destroyed_target_stays_registered 32 2000 7 backend7 saturated7
              eq_refl eq_refl) as (be' & Hdel & _ & Hmap & Hgone & _ & _ & Hstale).
  exists be'. split; [exact Hdel |]. split; [exact Hmap |].
  split; [exact Hgone | exact (Hstale 3000)].
Defined.

Lemma socketCallback_detaches_only_on_failed_read_witness :
  Host_socketCallback 32 4 (mkReceived 32 (FrameComplete 99) false) host7 =
    (Returns (true, host7), []) ∧
  (false = false ↔
   Z.land G_IO_IN G_IO_IN ≠ 0 ∧ recv_len (mkReceived (-1) PoolConstruction true) = -1).
Proof.
  split.
  - destruct (socketCallback_detaches_only_on_failed_read 32 RendererBackend Handler32
                4 (mkReceived 32 (FrameComplete 99) false) host7 client7)
      as [Hidle _].
    destruct (Hidle eq_refl) as [Hhost _]. exact Hhost.
  - destruct (socketCallback_detaches_only_on_failed_read 32 RendererBackend Handler32
                G_IO_IN (mkReceived (-1) PoolConstruction true) host7 client7)
      as (_ & Hhost & _).
    destruct (Hhost false host7 eq_refl) as [_ Hiff]. exact Hiff.
Defined.

Lemma receiveFileDescriptor_retries_on_EINTR_witness :
  receiveFileDescriptor host_ready [(-1, EINTR, None); (-1, EINTR, None); (1, 0, Some 9)] =
    (Returns 9, [SysRecvmsg 4; SysRecvmsg 4; SysRecvmsg 4]) ∧
  receiveFileDescriptor host_ready [(-1, 32, None)] = (Returns (-32), [SysRecvmsg 4]) ∧
  receiveFileDescriptor host_ready [(0, 0, None)] = (NoReturn InvalidDeref, [SysRecvmsg 4]).
Proof.
  destruct (receiveFileDescriptor_retries_on_EINTR host_ready [None; None]) as [_ Hends].
  destruct (receiveFileDescriptor_retries_on_EINTR host_ready []) as [_ Hfirst].
  split; [| split].
  - apply (Hends 1 0 (Some 9) []). intros [Hr _]. discriminate Hr.
  - apply (Hfirst (-1) 32 None []). intros [_ He]. discriminate He.
  - apply (Hfirst 0 0 None []). intros [Hr _]. discriminate Hr.
Defined.

Lemma client_descriptor_closed_once_witness :
  closes 5 (snd (release_then_deinitialize [(false, 8); (true, 9); (true, -1)]
                   host_ready)) = 1%nat.
Proof.
  destruct (client_descriptor_closed_once [(false, 8); (true, 9); (true, -1)] host_ready)
    as [Honce _].
  apply Honce. discriminate.
Defined.

Lemma Host_initialize_all_or_nothing_witness :
  closes 4 (snd (Host_initialize 0 4 5 false host_ready)) = 1%nat ∧
  closes 5 (snd (Host_initialize 0 4 5 false host_ready)) = 1%nat ∧
  Host_socketFd (fst (Host_initialize 0 4 5 true host_ready)) = 4 ∧
  hc_clientFd (fst (Host_initialize (-1) 4 5 true host_ready)) = 5.
Proof.
  destruct (Host_initialize_all_or_nothing 0 4 5 false host_ready)
    as (_ & _ & Hnosocket & _).
  destruct Hnosocket as (_ & _ & Hclosed); [discriminate | reflexivity |].
  destruct Hclosed as [H4 H5]; [discriminate |].
  destruct (Host_initialize_all_or_nothing 0 4 5 true host_ready)
    as (_ & _ & _ & Hok).
  destruct Hok as (Hfd & _); [discriminate | reflexivity |].
  destruct (Host_initialize_all_or_nothing (-1) 4 5 true host_ready)
    as (_ & Hfail & _).
  destruct Hfail as (_ & _ & Hclient & _); [reflexivity |].
  split; [exact H4 |]. split; [exact H5 |]. split; [exact Hfd | exact Hclient].
Defined.

Lemma reachable_abort_iff_all_locked_witness :
  ∃ t, result (run failed_frame (EGLTarget_new 1)) = Returns t ∧
       current_unlocked (buffers t) ∧
       (result (frameWillRender env_nomem t) = NoReturn StdAbort ↔
        Forall (λ b, locked b = true) (pool (buffers t))).
Proof.
  assert (∃ t, result (run failed_frame (EGLTarget_new 1)) = Returns t) as [t Ht].
  { eexists. vm_compute. reflexivity. }
  exists t. split; [exact Ht |].
  exact (reachable_abort_iff_all_locked 1 failed_frame t env_nomem Ht).
Defined.

Lemma pool_of_four_witness :
  ∃ t, result (run failed_frame (EGLTarget_new 1)) = Returns t ∧
       length (pool (buffers t)) = 4%nat ∧ numbered (pool (buffers t)).
Proof.
  assert (∃ t, result (run failed_frame (EGLTarget_new 1)) = Returns t) as [t Ht].
  { eexists. vm_compute. reflexivity. }
  exists t. split; [exact Ht |].
  exact (pool_of_four 1 failed_frame t Ht).
Defined.

Lemma resize_during_frame_drops_commit_witness :
  ∃ t1 es1 t2,
    resize 800 600 rendering7 = (Returns t1, es1) ∧
    frameRendered t1 = (Returns t2, [EvFlush]) ∧
    pool (buffers t2) !! 0%nat = Some (mkBuffer 0 true 0 0 0 0).
Proof.
  destruct (resize_during_frame_drops_commit 800 600 rendering7 0
              (mkBuffer 0 false 100 200 11 12))
    as (t1 & es1 & t2 & Hresize & _ & Hcommit & Hslot & _).
  - intros [Hw _]. discriminate Hw.
  - reflexivity.
  - reflexivity.
  - exists t1, es1, t2. split; [exact Hresize |]. split; [exact Hcommit | exact Hslot].
Defined.

Lemma sendHandle_retries_on_EAGAIN_witness :
  sendHandleToUnixSocket 100 (BackendIpc 1000) [- EAGAIN; - EAGAIN; -32; 0] =
    (Returns tt,
     [EvSendHandleToUnixSocket 100 (BackendIpc 1000) (- EAGAIN);
      EvSendHandleToUnixSocket 100 (BackendIpc 1000) (- EAGAIN);
      EvSendHandleToUnixSocket 100 (BackendIpc 1000) (-32)]).
Proof.
  destruct (sendHandle_retries_on_EAGAIN 100 (BackendIpc 1000) 2) as [_ Hends].
  apply (Hends (-32) [0]). discriminate.
Defined.
